(** * svelte-ssr-cookies: schema-validated cookie synchronisation

    A shallow embedding of [src/lib/schema.ts] (schema introspection, the
    [Cookies] store and the [useCookies] proxy) and of
    [src/lib/server/index.ts] ([getCachedKeys], [pickCookies]).

    Modelling conventions.
    - A JavaScript string is represented by the bytes of its UTF-8
      encoding (a Rocq [string]); strings holding an unpaired surrogate,
      which have no UTF-8 encoding, are not represented.
    - A plain JavaScript object is a finite map of its own enumerable
      string-keyed properties whose prototype is [Object.prototype]:
      property reads and the [in] operator fall back to the prototype,
      assignments define own data properties (an assignment to
      [__proto__], which would replace the prototype, is outside the
      model).  Enumeration order is abstracted to the order of
      [map_to_list].
    - External collaborators ([JSON.parse], [JSON.stringify], [dequal], the
      schema's [validate], the cookie jar, js-cookie) are parameters; calls
      into them that the claims talk about are recorded in an event trace.
      The one thing taken from js-cookie is the name its [set] writes a
      cookie under. *)

From Stdlib Require Import Ascii String.
From stdpp Require Import gmap strings list fin_maps.

Set Warnings "-register-all".
Open Scope string_scope.
Open Scope list_scope.

(* ===================================================================== *)
(** ** JavaScript values and plain objects *)
(* ===================================================================== *)

(** Numbers: only the distinction between [NaN] and the other numbers
    matters here ([NaN === NaN] is false). *)
Inductive number :=
| NaN
| Finite (z : Z).

Inductive JSValue :=
| VUndefined
| VNull
| VBoolean (b : bool)
| VNumber (n : number)
| VString (s : string)
| VArray (items : list JSValue)
| VObject (props : list (string * JSValue))
| VFunction (name : string)
| VObjectPrototype.

Abbreviation obj := (gmap string JSValue).

Definition typeof (v : JSValue) : string :=
  match v with
  | VUndefined => "undefined"
  | VNull => "object"
  | VBoolean _ => "boolean"
  | VNumber _ => "number"
  | VString _ => "string"
  | VArray _ | VObject _ | VObjectPrototype => "object"
  | VFunction _ => "function"
  end.

(** [a === b].  Objects compare by reference, which a value cannot
    express; [#setValue] applies [===] to non-object operands only. *)
Definition strict_equals (a b : JSValue) : bool :=
  match a, b with
  | VUndefined, VUndefined => true
  | VNull, VNull => true
  | VBoolean x, VBoolean y => Bool.eqb x y
  | VNumber (Finite x), VNumber (Finite y) => Z.eqb x y
  | VString x, VString y => String.eqb x y
  | VFunction f, VFunction g => String.eqb f g
  | _, _ => false
  end.

(** The property names of [Object.prototype]. *)
Definition Object_prototype_names : list string :=
  [ "constructor"; "hasOwnProperty"; "isPrototypeOf"; "propertyIsEnumerable";
    "toLocaleString"; "toString"; "valueOf"; "__proto__";
    "__defineGetter__"; "__defineSetter__"; "__lookupGetter__";
    "__lookupSetter__" ].

Definition Object_prototype_get (k : string) : option JSValue :=
  if bool_decide (k ∈ Object_prototype_names)
  then Some (if String.eqb k "__proto__" then VObjectPrototype else VFunction k)
  else None.

(** [o[k]] *)
Definition obj_get (o : obj) (k : string) : JSValue :=
  match o !! k with
  | Some v => v
  | None => default VUndefined (Object_prototype_get k)
  end.

(** [k in o] *)
Definition obj_in (k : string) (o : obj) : bool :=
  match o !! k with
  | Some _ => true
  | None => bool_decide (k ∈ Object_prototype_names)
  end.

(** [{...a, ...b}] *)
Definition spread (a b : obj) : obj := b ∪ a.

Definition Object_keys (o : obj) : list string := (map_to_list o).*1.
Definition Object_entries {A} (o : gmap string A) : list (string * A) := map_to_list o.
Definition Object_fromEntries (l : list (string * JSValue)) : obj := list_to_map l.

(** Completion of a call: normal return or a thrown [Error(message)]. *)
Inductive completion (A : Type) :=
| Normal (a : A)
| Throw (message : string).
Arguments Normal {A} a.
Arguments Throw {A} message.

(* ===================================================================== *)
(** ** Cookie-name encoding (server/index.ts, lines 44-46) *)
(* ===================================================================== *)

Definition isAlphaNum (c : ascii) : bool :=
  let n := nat_of_ascii c in
  (((48 <=? n) && (n <=? 57)) || ((65 <=? n) && (n <=? 90))
   || ((97 <=? n) && (n <=? 122)))%nat.

(** uriUnreserved of ECMAScript: alphanumerics and [- _ . ! ~ * ' ( )]. *)
Definition uriUnreserved (c : ascii) : bool :=
  isAlphaNum c || bool_decide (c ∈ list_ascii_of_string "-_.!~*'()").

Definition hexDigit (n : nat) : ascii :=
  (if n <? 10 then ascii_of_nat (48 + n) else ascii_of_nat (55 + n))%nat.

(** ["%XX"], upper-case hexadecimal. *)
Definition percentEncode (c : ascii) : string :=
  let n := nat_of_ascii c in
  String "%" (String (hexDigit (n / 16)%nat) (String (hexDigit (n mod 16)%nat) "")).

Fixpoint encodeURIComponent (s : string) : string :=
  match s with
  | "" => ""
  | String c rest =>
      if uriUnreserved c then String c (encodeURIComponent rest)
      else percentEncode c +:+ encodeURIComponent rest
  end.

(** The escapes matched by [/%(2[346B]|5E|60|7C)/] and what
    [decodeURIComponent] makes of them. *)
Definition nameEscape (h1 h2 : ascii) : option ascii :=
  match String h1 (String h2 "") with
  | "23" => Some "#"%char
  | "24" => Some "$"%char
  | "26" => Some "&"%char
  | "2B" => Some "+"%char
  | "5E" => Some "^"%char
  | "60" => Some "`"%char
  | "7C" => Some "|"%char
  | _ => None
  end.

(** [s.replace(/%(..)/g, decodeURIComponent)] for a set of two-digit
    escapes: scan left to right, replace each match, resume after it. *)
Fixpoint replaceEscapes (esc : ascii → ascii → option ascii) (s : string) : string :=
  match s with
  | "" => ""
  | String c rest =>
      if Ascii.eqb c "%" then
        match rest with
        | String h1 (String h2 rest') =>
            match esc h1 h2 with
            | Some d => String d (replaceEscapes esc rest')
            | None => String c (replaceEscapes esc rest)
            end
        | _ => String c (replaceEscapes esc rest)
        end
      else String c (replaceEscapes esc rest)
  end.

(** [escape] on the two characters it is applied to. *)
Definition escape (c : ascii) : string := percentEncode c.

(** [s.replace(/[()]/g, escape)] *)
Fixpoint replaceParens (s : string) : string :=
  match s with
  | "" => ""
  | String c rest =>
      if Ascii.eqb c "(" || Ascii.eqb c ")" then escape c +:+ replaceParens rest
      else String c (replaceParens rest)
  end.

(** The [encodedKey] of [pickCookies]. *)
Definition encodedKey (key : string) : string :=
  replaceParens (replaceEscapes nameEscape (encodeURIComponent key)).

(** The encoding rule in the words of the specification: the escapes
    decoded back are [24, 26, 2B, 3A, 3C, 3D, 3E, 3F, 40]. *)
Definition specEscape (h1 h2 : ascii) : option ascii :=
  match String h1 (String h2 "") with
  | "24" => Some "$"%char
  | "26" => Some "&"%char
  | "2B" => Some "+"%char
  | "3A" => Some ":"%char
  | "3C" => Some "<"%char
  | "3D" => Some "="%char
  | "3E" => Some ">"%char
  | "3F" => Some "?"%char
  | "40" => Some "@"%char
  | _ => None
  end.

Definition specEncodedName (key : string) : string :=
  replaceParens (replaceEscapes specEscape (encodeURIComponent key)).

(** The encoding, one character of the key at a time: the characters
    [pickCookies] leaves as they are, the parentheses, the rest. *)
Definition keptInName (c : ascii) : bool :=
  isAlphaNum c || bool_decide (c ∈ list_ascii_of_string "-_.!~*'#$&+^`|").

Definition nameOfChar (c : ascii) : string :=
  if keptInName c then String c "" else percentEncode c.

Fixpoint nameOfChars (key : string) : string :=
  match key with
  | "" => ""
  | String c rest => nameOfChar c +:+ nameOfChars rest
  end.


(* ===================================================================== *)
(** ** The Standard Schema contract (standard-schema.ts) *)
(* ===================================================================== *)

Inductive propertyKey :=
| KString (s : string)
| KNumber (n : number)
| KSymbol (id : nat).

(** An element of [issue.path]: a property key or a [{ key }] segment. *)
Inductive pathItem :=
| PathKey (k : propertyKey)
| PathSegment (k : propertyKey).

Record issue := { message : string; path : option (list pathItem) }.

(** What [validate] can hand back: an object with a [value] property, an
    object without [value] but with [issues], a Promise, or anything else
    (a falsy value, an object with neither property). *)
Inductive result :=
| Success (value : obj)
| Failure (issues : list issue)
| Pending
| Unrecognized.

(** A codec encoder; [None] stands for a thrown exception. *)
Definition encoder := JSValue → option JSValue.

(** The parts of a Zod field schema that [extractZodCodecEncoder] reads;
    [reverseTransform] is [Some f] when [typeof] it is ['function']. *)
Record zodInnerDef := {
  innerDef_type : option string;
  innerDef_reverseTransform : option encoder }.
Record zodInnerType := { innerType_def : option zodInnerDef }.
Record zodDef := {
  def_type : option string;
  def_innerType : option zodInnerType;
  def_reverseTransform : option encoder }.
Record fieldSchema := { def : option zodDef }.

Record StandardSchemaV1 := {
  standard_validate : obj → result;           (* schema[~standard].validate *)
  shape : option (gmap string fieldSchema) }.

(** [path.includes(k)] for a string [k] (SameValueZero). *)
Definition includes (p : list pathItem) (k : string) : bool :=
  existsb (λ item, match item with
                   | PathKey (KString s) => String.eqb s k
                   | _ => false
                   end) p.

(** [issues.some((issue) => issue.path?.includes(k))] *)
Definition referenced (issues : list issue) (k : string) : bool :=
  existsb (λ i, match path i with
                | Some p => includes p k
                | None => false
                end) issues.

(* ===================================================================== *)
(** ** Schema introspection (schema.ts, lines 1-69) *)
(* ===================================================================== *)

Record SchemaInfo := {
  keys : list string;
  codecEncoders : gmap string encoder }.

Definition extractZodCodecEncoder (fieldSchema : fieldSchema) : option encoder :=
  match def fieldSchema with
  | None => None
  | Some d =>
      match def_type d, def_reverseTransform d with
      | Some "pipe", Some f => Some f
      | _, _ =>
          match def_type d, def_innerType d with
          | Some "default", Some inner =>
              match innerType_def inner with
              | Some idef =>
                  match innerDef_type idef, innerDef_reverseTransform idef with
                  | Some "pipe", Some f => Some f
                  | _, _ => None
                  end
              | None => None
              end
          | _, _ => None
          end
      end
  end.

Definition extractSchemaInfo (schema : StandardSchemaV1) : SchemaInfo :=
  match standard_validate schema ∅ with
  | Success defaultValues =>
      {| keys := Object_keys defaultValues;
         codecEncoders :=
           match shape schema with
           | Some sh =>
               foldl (λ encoders '(key, fieldSchema),
                        match extractZodCodecEncoder fieldSchema with
                        | Some encoder => <[key := encoder]> encoders
                        | None => encoders
                        end) ∅ (Object_entries sh)
           | None => ∅
           end |}
  | _ => {| keys := []; codecEncoders := ∅ |}
  end.

(** The key set obtained by validating an empty candidate, in the words
    of the specification. *)
Definition defaultKeySet (schema : StandardSchemaV1) : gset string :=
  match standard_validate schema ∅ with
  | Success defaults => dom defaults
  | _ => ∅
  end.

(* ===================================================================== *)
(** ** External collaborators *)
(* ===================================================================== *)

(** [JSON.parse] ([None]: SyntaxError), [JSON.stringify] ([None]:
    [undefined]) and [dequal] of dequal/lite. *)
Class Runtime := {
  JSON_parse : string → option JSValue;
  JSON_stringify : JSValue → option string;
  dequal : JSValue → JSValue → bool }.

(** js-cookie's [CookieAttributes], passed through untouched. *)
Record CookieAttributes := {
  expires : option number;
  cookie_path : option string;
  domain : option string;
  secure : option bool;
  sameSite : option string }.

(** A property name as a Proxy trap receives it. *)
Inductive property :=
| PropString (s : string)
| PropSymbol (id : nat).

(** What the write path and the facade do to the outside, in program
    order. *)
Inductive event :=
| Validate (candidate : obj) (r : result)          (* this.validate(candidate) *)
| ConsoleError (key : string)                      (* console.error(...) *)
| JsCookieSet (name : string) (v : option string)
              (options : option CookieAttributes)  (* jsCookie.set(name, v, options) *)
| StateAssign (key : string) (v : JSValue)         (* #cookies[key] = v on $state *)
| ReflectSet (prop : property) (v : JSValue).      (* Reflect.set(target, prop, v) *)

Definition isJsCookieSet (e : event) : bool :=
  match e with JsCookieSet _ _ _ => true | _ => false end.
Definition isStateAssign (e : event) : bool :=
  match e with StateAssign _ _ => true | _ => false end.

(** Number of transport writes, and of notifications, in a trace. *)
Definition transportWrites (t : list event) : nat := length (filter isJsCookieSet t).
Definition notifications (t : list event) : nat := length (filter isStateAssign t).

(* ===================================================================== *)
(** ** Server side (server/index.ts) *)
(* ===================================================================== *)

(** SvelteKit's [Cookies]: only [get(name, opts)] is used. *)
Record KitCookies (Opts : Type) := {
  kit_get : string → option Opts → option string }.
Arguments kit_get {Opts} _ _ _.

(** Schema objects are compared by identity in the [WeakMap]: a schema
    is named by a reference into the table [schemas] of schema objects. *)
Abbreviation schemaRef := positive.
Abbreviation keysCache := (gmap positive (list string)).

Section Server.
Context `{Runtime}.
Variable schemas : schemaRef → StandardSchemaV1.

Definition getCachedKeys (schemaKeysCache : keysCache) (schema : schemaRef)
  : list string * keysCache :=
  match schemaKeysCache !! schema with
  | Some ks => (ks, schemaKeysCache)
  | None =>
      let result := standard_validate (schemas schema) ∅ in
      let keys := match result with
                  | Success v => Object_keys v
                  | _ => []
                  end in
      (keys, <[schema := keys]> schemaKeysCache)
  end.

(** One iteration of the [for (const key of keys)] loop. *)
Definition pickOne {Opts} (cookies : KitCookies Opts) (opts : option Opts)
    (picked : obj) (key : string) : obj :=
  match kit_get cookies (encodedKey key) opts with
  | None => picked
  | Some raw =>
      match JSON_parse raw with
      | Some parsed => <[key := parsed]> picked
      | None => picked
      end
  end.

Definition pickCookies {Opts} (schemaKeysCache : keysCache)
    (cookies : KitCookies Opts) (schema : schemaRef) (opts : option Opts)
  : obj * keysCache :=
  let '(keys, cache') := getCachedKeys schemaKeysCache schema in
  (foldl (pickOne cookies opts) ∅ keys, cache').

(** The states of [schemaKeysCache] that the module can be in. *)
Inductive reachable : keysCache → Prop :=
| reachable_init : reachable ∅
| reachable_step c schema : reachable c → reachable (getCachedKeys c schema).2.
End Server.

(* ===================================================================== *)
(** ** The client store: class [Cookies] (schema.ts, lines 76-255) *)
(* ===================================================================== *)

Module Store.

Record Cookies := {
  _schema : StandardSchemaV1;
  _schemaShape : obj;                        (* Record<string, true> *)
  _codecEncoders : gmap string encoder;
  _cookies : obj }.

(** [constructor(schema, cookies)] *)
Definition new (schema : StandardSchemaV1) (cookies : obj) : Cookies :=
  let schemaInfo := extractSchemaInfo schema in
  {| _schema := schema;
     _cookies := cookies;
     _schemaShape :=
       foldl (λ acc key, <[key := VBoolean true]> acc) ∅ (keys schemaInfo);
     _codecEncoders := codecEncoders schemaInfo |}.

(** [this.#cookies[key] = v] *)
Definition assign (this : Cookies) (key : string) (v : JSValue) : Cookies :=
  {| _schema := _schema this;
     _schemaShape := _schemaShape this;
     _codecEncoders := _codecEncoders this;
     _cookies := <[key := v]> (_cookies this) |}.

Definition validate (this : Cookies) (value : obj) : result :=
  standard_validate (_schema this) value.

Definition has (this : Cookies) (key : string) : bool :=
  obj_in key (_schemaShape this).

Definition getTypedValue (this : Cookies) (key : string) : completion JSValue :=
  let paramsObject := _cookies this in
  match validate this paramsObject with
  | Pending => Throw "Async validation not supported"
  | Success value => Normal (obj_get value key)
  | Failure issues =>
      let defaultValues :=
        match validate this ∅ with
        | Success value => value
        | _ => ∅
        end in
      let validParams :=
        Object_fromEntries
          (filter (λ entry, negb (referenced issues entry.1))
                  (Object_entries paramsObject)) in
      Normal (obj_get (spread defaultValues validParams) key)
  | Unrecognized => Normal VUndefined
  end.

Section WritePath.
Context `{Runtime}.

(** The test of line 234. *)
Definition unchanged (currentValue value : JSValue) : bool :=
  let isPrimitive :=
    negb (String.eqb (typeof currentValue) "object")
    && negb (String.eqb (typeof value) "object")
    && negb (strict_equals currentValue VNull)
    && negb (strict_equals value VNull) in
  if isPrimitive then strict_equals currentValue value
  else dequal currentValue value.

(** Lines 236-244: the value handed to validation, and what is logged. *)
Definition encodeForValidation (this : Cookies) (key : string) (value : JSValue)
  : JSValue * list event :=
  match _codecEncoders this !! key with
  | Some encoder =>
      match encoder value with
      | Some encoded => (encoded, [])
      | None => (value, [ConsoleError key])
      end
  | None => (value, [])
  end.

Definition setValue (this : Cookies) (key : string) (value : JSValue)
    (options : option CookieAttributes) : completion (Cookies * list event) :=
  if negb (has this key) then Normal (this, [])
  else
    let paramsObject := _cookies this in
    let currentValue := obj_get paramsObject key in
    if unchanged currentValue value then Normal (this, [])
    else
      let '(valueForValidation, logged) := encodeForValidation this key value in
      let newParamsObject := spread paramsObject {[ key := valueForValidation ]} in
      let result := validate this newParamsObject in
      match result with
      | Success validatedResult =>
          let committed := obj_get validatedResult key in
          Normal (assign this key committed,
                  logged ++ [ Validate newParamsObject result;
                              JsCookieSet key (JSON_stringify value) options;
                              StateAssign key committed ])
      | _ => Normal (this, logged ++ [ Validate newParamsObject result ])
      end.

Definition set (this : Cookies) (key : string) (value : JSValue)
  : completion (Cookies * list event) :=
  setValue this key value None.

Definition update (this : Cookies) (key : string) (value : JSValue)
    (options : option CookieAttributes) : completion (Cookies * list event) :=
  setValue this key value options.

(** [a; b] on the write path: run [b] in the store [a] leaves, and
    append the traces. *)
Definition andThen (a : completion (Cookies * list event))
    (b : Cookies → completion (Cookies * list event))
  : completion (Cookies * list event) :=
  match a with
  | Normal (this, t) =>
      match b this with
      | Normal (this', t') => Normal (this', t ++ t')
      | Throw e => Throw e
      end
  | Throw e => Throw e
  end.
End WritePath.

Definition get (this : Cookies) (key : string) : completion JSValue :=
  getTypedValue this key.

End Store.

(* ===================================================================== *)
(** ** The facade: [useCookies] (schema.ts, lines 312-348) *)
(* ===================================================================== *)

(** What the [get] trap returns. *)
Inductive trapGet :=
| UpdateWrapper                          (* function (key, value, options) { return target.update(...) } *)
| SchemaValue (c : completion JSValue)   (* target.get(prop) *)
| ReflectGet (prop : property).          (* Reflect.get(target, prop) *)

Section Facade.
Context `{Runtime}.

Definition handler_get (target : Store.Cookies) (prop : property) : trapGet :=
  match prop with
  | PropString s =>
      if String.eqb s "update" then UpdateWrapper
      else if Store.has target s then SchemaValue (Store.get target s)
      else ReflectGet prop
  | PropSymbol _ => ReflectGet prop
  end.

(** Calling the function returned for ['update']. *)
Definition callUpdateWrapper (target : Store.Cookies) (key : string)
    (value : JSValue) (options : option CookieAttributes)
  : completion (Store.Cookies * list event) :=
  Store.update target key value options.

Definition handler_set (target : Store.Cookies) (prop : property) (value : JSValue)
  : completion (Store.Cookies * list event) :=
  match prop with
  | PropString s =>
      if Store.has target s then Store.set target s value
      else Normal (target, [ReflectSet prop value])
  | PropSymbol _ => Normal (target, [ReflectSet prop value])
  end.

Definition useCookies (schema : StandardSchemaV1) (cookies : obj) : Store.Cookies :=
  Store.new schema cookies.
End Facade.

(** Trace and store of a completed write. *)
Definition traceOf (c : completion (Store.Cookies * list event)) : list event :=
  match c with
  | Normal (_, t) => t
  | Throw _ => []
  end.

Definition cacheOf (c : completion (Store.Cookies * list event)) : option obj :=
  match c with
  | Normal (this, _) => Some (Store._cookies this)
  | Throw _ => None
  end.

(** The candidate of step 4: the cache with [key] replaced by the
    encoded value. *)
Definition candidate `{Runtime} (this : Store.Cookies) (key : string) (value : JSValue) : obj :=
  <[key := (Store.encodeForValidation this key value).1]> (Store._cookies this).

(** [{...defaults, ...validEntries}[key]], read off the two objects. *)
Definition mergedLookup (defaults validEntries : obj) (key : string) : JSValue :=
  match validEntries !! key with
  | Some v => v
  | None => obj_get defaults key
  end.

(** The defaults of the read path: the value of validating an empty
    candidate, empty when that validation does not succeed. *)
Definition defaultsOf (this : Store.Cookies) : obj :=
  match Store.validate this ∅ with
  | Success value => value
  | _ => ∅
  end.

(** What [pickCookies] reads for a key: the jar entry under the encoded
    name, parsed. *)
Definition readCookie `{Runtime} {Opts} (cookies : KitCookies Opts) (opts : option Opts)
    (key : string) : option JSValue :=
  kit_get cookies (encodedKey key) opts ≫= JSON_parse.

(** [result && 'value' in result] *)
Definition isSuccess (r : result) : bool :=
  match r with Success _ => true | _ => false end.

(** The three ways a call of [#setValue] can go: it stops at the key
    check or the equality check; it validates the candidate and is turned
    down; it validates the candidate, persists and commits. *)

Inductive writeOutcome `{Runtime} (this : Store.Cookies) (key : string)
    (value : JSValue) (options : option CookieAttributes)
  : completion (Store.Cookies * list event) → Prop :=
| write_skipped :
    Store.has this key
    && negb (Store.unchanged (obj_get (Store._cookies this) key) value) = false →
    writeOutcome this key value options (Normal (this, []))
| write_rejected r :
    Store.has this key = true →
    Store.unchanged (obj_get (Store._cookies this) key) value = false →
    Store.validate this (candidate this key value) = r →
    isSuccess r = false →
    writeOutcome this key value options
      (Normal (this, (Store.encodeForValidation this key value).2
                     ++ [ Validate (candidate this key value) r ]))
| write_committed validated :
    Store.has this key = true →
    Store.unchanged (obj_get (Store._cookies this) key) value = false →
    Store.validate this (candidate this key value) = Success validated →
    writeOutcome this key value options
      (Normal (Store.assign this key (obj_get validated key),
               (Store.encodeForValidation this key value).2
               ++ [ Validate (candidate this key value) (Success validated);
                    JsCookieSet key (JSON_stringify value) options;
                    StateAssign key (obj_get validated key) ])).

(* ===================================================================== *)
(** ** Example schemas and an example runtime *)
(* ===================================================================== *)

(** A runtime for the examples.  It agrees with [JSON] on the literals
    [true], [false] and [null] and with [dequal] on primitive values,
    which is all the examples use. *)
Definition exampleRuntime : Runtime := {|
  JSON_parse raw :=
    if String.eqb raw "true" then Some (VBoolean true)
    else if String.eqb raw "false" then Some (VBoolean false)
    else if String.eqb raw "null" then Some VNull
    else None;
  JSON_stringify v :=
    match v with
    | VBoolean true => Some "true"
    | VBoolean false => Some "false"
    | VNull => Some "null"
    | _ => None
    end;
  dequal a b :=
    strict_equals a b
    || match a, b with VNumber NaN, VNumber NaN => true | _, _ => false end |}.

Definition invalidType (key expected : string) : issue :=
  {| message := "Invalid input: expected " +:+ expected;
     path := Some [PathKey (KString key)] |}.

Definition defaultOf (inner : string) : fieldSchema :=
  {| def := Some {| def_type := Some "default";
                    def_innerType :=
                      Some {| innerType_def :=
                                Some {| innerDef_type := Some inner;
                                        innerDef_reverseTransform := None |} |};
                    def_reverseTransform := None |} |}.

(** [z.object({ state: z.boolean().default(true) })], the schema of the
    README: unknown keys are stripped, a missing [state] gets its default. *)
Definition stateSchema : StandardSchemaV1 := {|
  standard_validate o :=
    match o !! "state" with
    | None | Some VUndefined => Success {[ "state" := VBoolean true ]}
    | Some (VBoolean b) => Success {[ "state" := VBoolean b ]}
    | Some _ => Failure [invalidType "state" "boolean"]
    end;
  shape := Some {[ "state" := defaultOf "boolean" ]} |}.

(** A schema whose field transforms its input:
    [z.object({ flag: z.boolean().transform((b) => !b).default(false) })]. *)
Definition negatingSchema : StandardSchemaV1 := {|
  standard_validate o :=
    match o !! "flag" with
    | None | Some VUndefined => Success {[ "flag" := VBoolean false ]}
    | Some (VBoolean b) => Success {[ "flag" := VBoolean (negb b) ]}
    | Some _ => Failure [invalidType "flag" "boolean"]
    end;
  shape := None |}.

(** A schema with a default and an asynchronous check on [state]: the
    default is produced synchronously, a supplied value is validated
    asynchronously. *)
Definition asyncCheckSchema : StandardSchemaV1 := {|
  standard_validate o :=
    match o !! "state" with
    | None | Some VUndefined => Success {[ "state" := VBoolean true ]}
    | Some _ => Pending
    end;
  shape := None |}.

(** A schema with a field named [update]. *)
Definition updateSchema : StandardSchemaV1 := {|
  standard_validate o :=
    match o !! "update" with
    | None | Some VUndefined => Success {[ "update" := VBoolean false ]}
    | Some (VBoolean b) => Success {[ "update" := VBoolean b ]}
    | Some _ => Failure [invalidType "update" "boolean"]
    end;
  shape := None |}.

(** A field with a codec: cookies hold ["on"] or ["off"], the program a
    boolean; [reverseTransform] encodes the boolean and fails on
    anything else. *)
Definition onOffEncoder : encoder :=
  λ v, match v with
       | VBoolean true => Some (VString "on")
       | VBoolean false => Some (VString "off")
       | _ => None
       end.

Definition codecSchema : StandardSchemaV1 := {|
  standard_validate o :=
    match o !! "dark" with
    | None | Some VUndefined => Success {[ "dark" := VBoolean false ]}
    | Some (VString s) =>
        if String.eqb s "on" then Success {[ "dark" := VBoolean true ]}
        else if String.eqb s "off" then Success {[ "dark" := VBoolean false ]}
        else Failure [invalidType "dark" "on or off"]
    | Some _ => Failure [invalidType "dark" "string"]
    end;
  shape :=
    Some {[ "dark" :=
              {| def := Some {| def_type := Some "default";
                                def_innerType :=
                                  Some {| innerType_def :=
                                            Some {| innerDef_type := Some "pipe";
                                                    innerDef_reverseTransform :=
                                                      Some onOffEncoder |} |};
                                def_reverseTransform := None |} |} ]} |}.

(** A schema with two fields, [a : boolean = false] and [b : boolean = true]. *)
Definition twoFields : StandardSchemaV1 := {|
  standard_validate o :=
    match default (VBoolean false) (o !! "a"), default (VBoolean true) (o !! "b") with
    | VBoolean x, VBoolean y => Success {[ "a" := VBoolean x; "b" := VBoolean y ]}
    | VBoolean _, _ => Failure [invalidType "b" "boolean"]
    | _, VBoolean _ => Failure [invalidType "a" "boolean"]
    | _, _ => Failure [invalidType "a" "boolean"; invalidType "b" "boolean"]
    end;
  shape := None |}.

(** A cookie jar given by its entries; [opts] is ignored. *)
Definition jarOf (entries : list (string * string)) : KitCookies unit :=
  {| kit_get name _ := (list_to_map entries : gmap string string) !! name |}.

(* ===================================================================== *)
(** ** Sequences of calls, and auxiliary notions for the properties *)
(* ===================================================================== *)

(** One call of [update(key, value, options)]; [set(key, value)] is the
    call without options. *)
Record writeCall := {
  call_key : string;
  call_value : JSValue;
  call_options : option CookieAttributes }.

(** The calls of a list, one after the other on the same store. *)
Fixpoint runWrites `{Runtime} (this : Store.Cookies) (calls : list writeCall)
  : Store.Cookies * list event :=
  match calls with
  | [] => (this, [])
  | c :: rest =>
      match Store.update this (call_key c) (call_value c) (call_options c) with
      | Normal (this', t) =>
          let '(this'', t') := runWrites this' rest in (this'', t ++ t')
      | Throw _ => (this, [])
      end
  end.

(** Modelled from the spec: the transport write [set(name, value, attrs)]
    of js-cookie, an external library whose source is not part of the
    repository.  The specification has the persistence step apply the
    cookie-name transform to the key it is given; js-cookie 3 does so in
    [set] with
    [encodeURIComponent(name).replace(/%(2[346B]|5E|60|7C)/g, decodeURIComponent).replace(/[()]/g, escape)]. *)
Definition jsCookieNameEscape (h1 h2 : ascii) : option ascii :=
  match String h1 (String h2 "") with
  | "23" => Some "#"%char
  | "24" => Some "$"%char
  | "26" => Some "&"%char
  | "2B" => Some "+"%char
  | "5E" => Some "^"%char
  | "60" => Some "`"%char
  | "7C" => Some "|"%char
  | _ => None
  end.

Definition jsCookie_name (name : string) : string :=
  replaceParens (replaceEscapes jsCookieNameEscape (encodeURIComponent name)).

(** The cookie names a trace persists under: one for each
    [jsCookie.set(name, ...)], the name as js-cookie encodes it. *)
Definition persistedNames (t : list event) : list string :=
  omap (λ e, match e with
             | JsCookieSet name _ _ => Some (jsCookie_name name)
             | _ => None
             end) t.

(** A schema that reports its issues with [{ key }] path segments, as
    Standard Schema allows:
    [a : boolean = false], and an issue at [[{ key: 'a' }]] otherwise. *)
Definition segmentPathSchema : StandardSchemaV1 := {|
  standard_validate o :=
    match o !! "a" with
    | None | Some VUndefined => Success {[ "a" := VBoolean false ]}
    | Some (VBoolean x) => Success {[ "a" := VBoolean x ]}
    | Some _ =>
        Failure [ {| message := "Invalid type: expected boolean";
                     path := Some [PathSegment (KString "a")] |} ]
    end;
  shape := None |}.

(** A trace with the attributes of its transport writes replaced. *)
Definition withOptions (options : option CookieAttributes) (e : event) : event :=
  match e with
  | JsCookieSet name v _ => JsCookieSet name v options
  | _ => e
  end.

(** The characters a cookie name produced by [encodedKey] is made of. *)
Definition nameChar (c : ascii) : bool :=
  keptInName c || Ascii.eqb c "%".

(** Reading a name back: every [%XX] with two upper-case hexadecimal
    digits stands for the byte [XX].  Used to tell names apart. *)
Definition hexValue (c : ascii) : option nat :=
  let n := nat_of_ascii c in
  (if (48 <=? n) && (n <=? 57) then Some (n - 48)
   else if (65 <=? n) && (n <=? 70) then Some (n - 55)
   else None)%nat.

Fixpoint unescapeName (s : string) : string :=
  match s with
  | "" => ""
  | String c rest =>
      if Ascii.eqb c "%" then
        match rest with
        | String h1 (String h2 rest') =>
            match hexValue h1, hexValue h2 with
            | Some a, Some b => String (ascii_of_nat (16 * a + b)) (unescapeName rest')
            | _, _ => String c (unescapeName rest)
            end
        | _ => String c (unescapeName rest)
        end
      else String c (unescapeName rest)
  end.

(** [typeof v !== 'object'] for a value that is not [NaN]: the values on
    which [===] is reflexive. *)
Definition selfIdentical (v : JSValue) : bool :=
  negb (String.eqb (typeof v) "object")
  && match v with VNumber NaN => false | _ => true end.

(** A schema whose field has no default:
    [z.object({ token: z.string() })].  Validating [{}] fails. *)
Definition requiredSchema : StandardSchemaV1 := {|
  standard_validate o :=
    match o !! "token" with
    | Some (VString s) => Success {[ "token" := VString s ]}
    | _ => Failure [invalidType "token" "string"]
    end;
  shape := None |}.

(* ===================================================================== *)
(** ** Proof steps that recur *)
(* ===================================================================== *)

(** Split on what the encoding step logged: nothing, or one
    [console.error]. *)
Ltac logged_cases Hlogged := destruct Hlogged as [-> | ->]; simpl.

(** Run through the elements of a concrete trace that [H] says an event
    belongs to. *)
Ltac elem_of_trace H :=
  repeat (apply elem_of_cons in H as [H|H]; [try discriminate H|]);
  try (by apply elem_of_nil in H).

(** Find an event in a concrete trace. *)
Ltac in_trace :=
  solve [ repeat first [ apply list_elem_of_here | apply list_elem_of_further ] ].

(* ===================================================================== *)
(** * Properties *)
(* ===================================================================== *)

(** ** Plain objects *)

Lemma obj_get_own (o : obj) k v : o !! k = Some v → obj_get o k = v.
Proof. unfold obj_get. by intros ->. Qed.

Lemma spread_insert (o : obj) k v : spread o {[ k := v ]} = <[k := v]> o.
Proof. unfold spread. by rewrite insert_union_singleton_l. Qed.

Lemma spread_lookup (a b : obj) k : obj_get (spread a b) k = mergedLookup a b k.
Proof.
  unfold obj_get, mergedLookup, spread. rewrite lookup_union.
  destruct (b !! k) as [v|] eqn:Hb.
  - by destruct (a !! k).
  - rewrite (left_id None _). unfold obj_get. done.
Qed.

Lemma Object_keys_set (o : obj) : list_to_set (Object_keys o) = dom o.
Proof. unfold Object_keys. symmetry. apply leibniz_equiv, dom_alt. Qed.


(** ** C1: the cookie-name encoding *)

Example encodedKey_state : encodedKey "state" = "state".
Proof. reflexivity. Qed.

Example encodedKey_mixed : encodedKey "a#b:c(d) e" = "a#b%3Ac%28d%29%20e".
Proof. reflexivity. Qed.

(** One character of the key goes through the three passes on its own:
    the two [replace] calls never match across the boundary of what
    [encodeURIComponent] produced for it. *)
Lemma encodedKey_step (c : ascii) (rest : string) :
  encodedKey (String c rest) = nameOfChar c +:+ encodedKey rest.
Proof.
  unfold encodedKey.
  destruct c as [[] [] [] [] [] [] [] []]; reflexivity.
Qed.

Lemma encodedKey_chars (key : string) : encodedKey key = nameOfChars key.
Proof.
  induction key as [|c rest IH]; [reflexivity|].
  rewrite encodedKey_step, IH. reflexivity.
Qed.

(** The characters kept are the unreserved ones other than the
    parentheses, together with [# $ & + ^ ` |]. *)
Lemma keptInName_spec (c : ascii) :
  keptInName c =
  (uriUnreserved c && negb (bool_decide (c ∈ list_ascii_of_string "()")))
  || bool_decide (c ∈ list_ascii_of_string "#$&+^`|").
Proof. destruct c as [[] [] [] [] [] [] [] []]; vm_compute; reflexivity. Qed.

(** ** The scenario of the specification, and a codec *)

(** Schema [state: boolean, default true].  An empty jar gives [{}]; a
    store built from [{}] reads [true] for [state]; [set('state', false)]
    validates, persists ["false"] under [state], and [state] then reads
    [false]. *)
Example readme_scenario :
  (@pickCookies exampleRuntime (λ _, stateSchema) unit ∅ (jarOf []) 1%positive None).1 = ∅
  ∧ Store.get (Store.new stateSchema ∅) "state" = Normal (VBoolean true)
  ∧ @Store.set exampleRuntime (Store.new stateSchema ∅) "state" (VBoolean false)
    = Normal (Store.new stateSchema {[ "state" := VBoolean false ]},
              [ Validate {[ "state" := VBoolean false ]}
                         (Success {[ "state" := VBoolean false ]});
                JsCookieSet "state" (Some "false") None;
                StateAssign "state" (VBoolean false) ])
  ∧ Store.get (Store.new stateSchema {[ "state" := VBoolean false ]}) "state"
    = Normal (VBoolean false).
Proof. repeat split; reflexivity. Qed.

(** The encoder found under [default] -> [pipe] shapes the candidate;
    the cookie gets the value as passed; an encoder that throws is
    logged and the value goes to validation as it is. *)
Example codec_scenario :
  @Store.set exampleRuntime (Store.new codecSchema ∅) "dark" (VBoolean true)
  = Normal (Store.new codecSchema {[ "dark" := VBoolean true ]},
            [ Validate {[ "dark" := VString "on" ]} (Success {[ "dark" := VBoolean true ]});
              JsCookieSet "dark" (Some "true") None;
              StateAssign "dark" (VBoolean true) ])
  ∧ @Store.set exampleRuntime (Store.new codecSchema ∅) "dark" VNull
    = Normal (Store.new codecSchema ∅,
              [ ConsoleError "dark";
                Validate {[ "dark" := VNull ]} (Failure [invalidType "dark" "string"]) ]).
Proof. split; reflexivity. Qed.

(** ** The write path, case by case *)

Lemma encodeForValidation_logged `{Runtime} this key value :
  (Store.encodeForValidation this key value).2 = []
  ∨ (Store.encodeForValidation this key value).2 = [ConsoleError key].
Proof.
  unfold Store.encodeForValidation.
  destruct (Store._codecEncoders this !! key) as [f|]; [destruct (f value)|]; auto.
Qed.

Lemma setValue_outcome `{Runtime} this key value options :
  writeOutcome this key value options (Store.setValue this key value options).
Proof.
  unfold Store.setValue.
  destruct (Store.has this key) eqn:Hhas; simpl.
  2: { apply write_skipped. by rewrite Hhas. }
  destruct (Store.unchanged _ _) eqn:Hsame.
  { apply write_skipped. by rewrite Hhas, Hsame. }
  assert (Hc : <[key := (Store.encodeForValidation this key value).1]>
                 (Store._cookies this) = candidate this key value) by done.
  destruct (Store.encodeForValidation this key value) as [enc logged] eqn:He.
  rewrite spread_insert. simpl in Hc. rewrite Hc.
  change logged with (enc, logged).2. rewrite <- He.
  destruct (Store.validate this (candidate this key value)) eqn:Hv;
    first [ by eapply write_committed | by eapply write_rejected ].
Qed.

Lemma setValue_writes `{Runtime} this key value options :
  filter isJsCookieSet (traceOf (Store.setValue this key value options)) = []
  ∨ filter isJsCookieSet (traceOf (Store.setValue this key value options))
    = [JsCookieSet key (JSON_stringify value) options].
Proof.
  destruct (setValue_outcome this key value options) as [?|r ? ? ? Hr|v ? ? ?]; simpl.
  - by left.
  - left. logged_cases (encodeForValidation_logged this key value); done.
  - right. logged_cases (encodeForValidation_logged this key value); done.
Qed.

Lemma jsCookie_name_encodedKey (name : string) : jsCookie_name name = encodedKey name.
Proof. reflexivity. Qed.

Lemma persistedNames_filter (t : list event) :
  persistedNames t = persistedNames (filter isJsCookieSet t).
Proof.
  unfold persistedNames. induction t as [|e t IH]; [done|].
  rewrite filter_cons. destruct e; simpl; first [exact IH | f_equal; exact IH].
Qed.

(** C1 (amended).  For every key, the name under which [pickCookies]
    reads the jar is the key percent-encoded, with exactly the escapes
    23, 24, 26, 2B, 5E, 60 and 7C ([# $ & + ^ ` |]) decoded back and the
    parentheses replaced by %28 and %29: every byte is percent-encoded
    except the alphanumerics and [- _ . ! ~ * ' # $ & + ^ ` |].  The
    store hands the key to [jsCookie.set], and the name js-cookie
    persists it under is the name [pickCookies] reads: for every key
    the two names are equal. *)
Theorem C1_cookie_name_encoding `{Runtime} :
  (∀ key, encodedKey key = nameOfChars key)
  ∧ (∀ c, keptInName c =
          (uriUnreserved c && negb (bool_decide (c ∈ list_ascii_of_string "()")))
          || bool_decide (c ∈ list_ascii_of_string "#$&+^`|"))
  ∧ (∀ {Opts} (cookies : KitCookies Opts) opts key,
        readCookie cookies opts key
        = kit_get cookies (nameOfChars key) opts ≫= JSON_parse)
  ∧ (∀ this key value options,
        filter isJsCookieSet (traceOf (Store.setValue this key value options)) = []
        ∨ filter isJsCookieSet (traceOf (Store.setValue this key value options))
          = [JsCookieSet key (JSON_stringify value) options])
  ∧ (∀ key, jsCookie_name key = encodedKey key)
  ∧ (∀ this key value options,
        persistedNames (traceOf (Store.setValue this key value options)) = []
        ∨ persistedNames (traceOf (Store.setValue this key value options))
          = [encodedKey key])
  ∧ (∀ this key value options {Opts} (cookies : KitCookies Opts) opts name,
        name ∈ persistedNames (traceOf (Store.setValue this key value options)) →
        readCookie cookies opts key = kit_get cookies name opts ≫= JSON_parse).
Proof.
  assert (Hnames : ∀ this key value options,
            persistedNames (traceOf (Store.setValue this key value options)) = []
            ∨ persistedNames (traceOf (Store.setValue this key value options))
              = [encodedKey key]).
  { intros this key value options. rewrite persistedNames_filter.
    destruct (setValue_writes this key value options) as [-> | ->]; [by left|].
    right. reflexivity. }
  split; [exact encodedKey_chars|].
  split; [exact keptInName_spec|].
  split; [intros; unfold readCookie; by rewrite encodedKey_chars|].
  split; [exact setValue_writes|].
  split; [exact jsCookie_name_encodedKey|].
  split; [exact Hnames|].
  intros this key value options Opts cookies opts name Hin.
  destruct (Hnames this key value options) as [Hnone|Hone].
  - rewrite Hnone in Hin. by apply elem_of_nil in Hin.
  - rewrite Hone in Hin. apply list_elem_of_singleton in Hin as ->. reflexivity.
Qed.

(** C1 on the README schema and on a key with a colon: the cookie
    written by [set] is persisted under the name [pickCookies] reads. *)
Lemma C1_witness :
  persistedNames (traceOf (@Store.setValue exampleRuntime (Store.new stateSchema ∅)
                             "state" (VBoolean false) None))
  = [encodedKey "state"]
  ∧ jsCookie_name "a:b" = "a%3Ab" ∧ encodedKey "a:b" = "a%3Ab"
  ∧ @readCookie exampleRuntime unit (jarOf [("state", "false")]) None "state"
    = kit_get (jarOf [("state", "false")]) "state" None ≫= @JSON_parse exampleRuntime.
Proof.
  split; [reflexivity|]. split; [reflexivity|]. split; [reflexivity|].
  destruct (@C1_cookie_name_encoding exampleRuntime) as (_ & _ & _ & _ & _ & _ & Hread).
  apply (Hread (Store.new stateSchema ∅) "state" (VBoolean false) None).
  vm_compute. apply list_elem_of_here.
Defined.

(** C1 as stated fails: the colon, whose escape 3A the claim lists among
    those decoded back, stays percent-encoded, and the hash sign, which
    the claim does not list, is decoded back. *)
Lemma C1_counterexample :
  encodedKey ":" = "%3A" ∧ specEncodedName ":" = ":"
  ∧ encodedKey "#" = "#" ∧ specEncodedName "#" = "%23"
  ∧ ¬ (∀ key, encodedKey key = specEncodedName key).
Proof.
  repeat split; try reflexivity.
  intros Heq. specialize (Heq ":"). vm_compute in Heq. discriminate.
Qed.

(** ** C2: the read path *)

Lemma validParams_lookup (issues : list issue) (cache : obj) k v :
  Object_fromEntries
    (filter (λ entry, negb (referenced issues entry.1)) (Object_entries cache)) !! k
  = Some v
  ↔ cache !! k = Some v ∧ referenced issues k = false.
Proof.
  unfold Object_fromEntries, Object_entries.
  rewrite <- elem_of_list_to_map.
  - rewrite list_elem_of_filter, elem_of_map_to_list. simpl.
    destruct (referenced issues k); simpl; intuition congruence.
  - apply NoDup_fmap_fst.
    + intros k' x y Hx%list_elem_of_filter Hy%list_elem_of_filter.
      destruct Hx as [_ Hx%elem_of_map_to_list].
      destruct Hy as [_ Hy%elem_of_map_to_list]. congruence.
    + apply NoDup_filter, NoDup_map_to_list.
Qed.

(** C2.  [get(k)] validates the whole cache.  On success it returns
    [result.value[k]]; on failure it returns
    [({...defaults, ...validEntries})[k]], where [defaults] is the value
    of validating an empty candidate (empty when that fails too) and
    [validEntries] holds exactly the cache entries whose key is an
    element of no issue's path ([path.includes(k)]).  The only
    exception [get] raises is the one for a pending validation result. *)
Theorem C2_get_recovery (this : Store.Cookies) (key : string) :
  (∀ value, Store.validate this (Store._cookies this) = Success value →
            Store.get this key = Normal (obj_get value key))
  ∧ (∀ issues, Store.validate this (Store._cookies this) = Failure issues →
       ∃ validEntries : obj,
         (∀ k v, validEntries !! k = Some v
                 ↔ Store._cookies this !! k = Some v ∧ referenced issues k = false)
         ∧ Store.get this key
           = Normal (obj_get (spread (defaultsOf this) validEntries) key))
  ∧ (∀ e, Store.get this key = Throw e →
          Store.validate this (Store._cookies this) = Pending
          ∧ e = "Async validation not supported").
Proof.
  unfold Store.get, Store.getTypedValue. split; [|split].
  - by intros value ->.
  - intros issues ->. eexists. split; [|reflexivity].
    intros k v. apply validParams_lookup.
  - intros e He.
    destruct (Store.validate this (Store._cookies this)); by inversion He.
Qed.

(** Partial-failure isolation, read off C2: with the cache
    [{a: "bad", b: false}] and the schema [twoFields], validation fails
    on [a] alone; [b] is read from the cache and [a] from the defaults. *)
Lemma C2_witness :
  Store.get (Store.new twoFields {[ "a" := VString "bad"; "b" := VBoolean false ]}) "b"
  = Normal (VBoolean false)
  ∧ Store.get (Store.new twoFields {[ "a" := VString "bad"; "b" := VBoolean false ]}) "a"
    = Normal (VBoolean false)
  ∧ Store.get (Store.new twoFields {[ "a" := VBoolean true; "b" := VBoolean false ]}) "a"
    = Normal (VBoolean true).
Proof.
  split; [|split].
  - destruct (C2_get_recovery
                (Store.new twoFields {[ "a" := VString "bad"; "b" := VBoolean false ]}) "b")
      as (_ & Hfail & _).
    destruct (Hfail [invalidType "a" "boolean"] eq_refl) as (ve & Hve & ->).
    rewrite spread_lookup. unfold mergedLookup.
    assert (Hb : ve !! "b" = Some (VBoolean false)).
    { apply Hve. split; vm_compute; reflexivity. }
    rewrite Hb. reflexivity.
  - reflexivity.
  - destruct (C2_get_recovery
                (Store.new twoFields {[ "a" := VBoolean true; "b" := VBoolean false ]}) "a")
      as (Hok & _ & _).
    rewrite (Hok {[ "a" := VBoolean true; "b" := VBoolean false ]} eq_refl).
    reflexivity.
Defined.

(** ** C9 and C3: the server side *)

Section ServerProperties.
Context `{Runtime}.
Variable schemas : schemaRef → StandardSchemaV1.

Lemma extractSchemaInfo_keys schema :
  keys (extractSchemaInfo schema)
  = match standard_validate schema ∅ with
    | Success v => Object_keys v
    | _ => []
    end.
Proof. unfold extractSchemaInfo. by destruct (standard_validate schema ∅). Qed.

Lemma keys_defaultKeySet schema :
  list_to_set (keys (extractSchemaInfo schema)) = defaultKeySet schema.
Proof.
  rewrite extractSchemaInfo_keys. unfold defaultKeySet.
  destruct (standard_validate schema ∅); try done. apply Object_keys_set.
Qed.

(** Every entry of a reachable cache holds the keys of its schema. *)
Lemma reachable_consistent c :
  reachable schemas c →
  ∀ r ks, c !! r = Some ks → ks = keys (extractSchemaInfo (schemas r)).
Proof.
  induction 1 as [|c r0 Hc IH]; intros r ks.
  - by rewrite lookup_empty.
  - unfold getCachedKeys. destruct (c !! r0) as [ks0|] eqn:Hr0; simpl.
    + apply IH.
    + rewrite lookup_insert. case_decide as Hr.
      * intros [= <-]. subst r. by rewrite extractSchemaInfo_keys.
      * apply IH.
Qed.

Lemma getCachedKeys_keys c r :
  reachable schemas c →
  (getCachedKeys schemas c r).1 = keys (extractSchemaInfo (schemas r)).
Proof.
  intros Hc. unfold getCachedKeys.
  destruct (c !! r) as [ks|] eqn:Hr; simpl.
  - by apply (reachable_consistent c Hc).
  - by rewrite extractSchemaInfo_keys.
Qed.

Lemma pickOne_readCookie {Opts} (cookies : KitCookies Opts) opts picked key :
  pickOne cookies opts picked key
  = match readCookie cookies opts key with
    | Some parsed => <[key := parsed]> picked
    | None => picked
    end.
Proof.
  unfold pickOne, readCookie.
  destruct (kit_get cookies (encodedKey key) opts) as [raw|]; simpl; [|done].
  by destruct (JSON_parse raw).
Qed.

Lemma foldl_pickOne_lookup {Opts} (cookies : KitCookies Opts) opts ks :
  ∀ (picked : obj) k,
    foldl (pickOne cookies opts) picked ks !! k
    = match (if bool_decide (k ∈ ks) then readCookie cookies opts k else None) with
      | Some parsed => Some parsed
      | None => picked !! k
      end.
Proof.
  induction ks as [|a ks IH]; intros picked k; simpl; [done|].
  rewrite IH, pickOne_readCookie.
  destruct (decide (k = a)) as [->|Hne].
  - rewrite (bool_decide_eq_true_2 (a ∈ a :: ks)) by apply list_elem_of_here.
    case_bool_decide; destruct (readCookie cookies opts a) eqn:Hread; try done.
    by rewrite lookup_insert_eq.
  - assert (Hiff : bool_decide (k ∈ a :: ks) = bool_decide (k ∈ ks)).
    { apply bool_decide_ext. rewrite elem_of_cons. tauto. }
    rewrite Hiff.
    destruct (if bool_decide (k ∈ ks) then readCookie cookies opts k else None);
      [done|].
    destruct (readCookie cookies opts a); [|done].
    by rewrite lookup_insert_ne.
Qed.
End ServerProperties.

(** C9.  The keys of [extractSchemaInfo], and the keys [getCachedKeys]
    returns in every state its cache can be in, are the keys of the value
    obtained by validating an empty candidate; they are none when that
    validation does not succeed. *)
Theorem C9_schema_keys (schemas : schemaRef → StandardSchemaV1) :
  (∀ schema,
      list_to_set (keys (extractSchemaInfo schema)) = defaultKeySet schema
      ∧ (isSuccess (standard_validate schema ∅) = false →
         keys (extractSchemaInfo schema) = []))
  ∧ (∀ c r, reachable schemas c →
      (getCachedKeys schemas c r).1 = keys (extractSchemaInfo (schemas r))
      ∧ list_to_set (getCachedKeys schemas c r).1 = defaultKeySet (schemas r)
      ∧ (isSuccess (standard_validate (schemas r) ∅) = false →
         (getCachedKeys schemas c r).1 = [])).
Proof.
  assert (Hnone : ∀ schema, isSuccess (standard_validate schema ∅) = false →
                            keys (extractSchemaInfo schema) = []).
  { intros schema. rewrite extractSchemaInfo_keys.
    by destruct (standard_validate schema ∅). }
  split.
  - intros schema. split; [apply keys_defaultKeySet | apply Hnone].
  - intros c r Hc. rewrite (getCachedKeys_keys schemas c r Hc).
    split; [done|]. split; [apply keys_defaultKeySet | apply Hnone].
Qed.

(** C9 on the README schema, on a fresh cache and on the cache the
    first call leaves behind; and on a schema whose validation of the
    empty candidate is pending. *)
Lemma C9_witness :
  (getCachedKeys (λ _, stateSchema) ∅ 1%positive).1 = ["state"]
  ∧ (getCachedKeys (λ _, stateSchema)
       (getCachedKeys (λ _, stateSchema) ∅ 1%positive).2 1%positive).1 = ["state"]
  ∧ keys (extractSchemaInfo
            {| standard_validate _ := Pending; shape := None |}) = [].
Proof.
  split; [|split].
  - destruct (C9_schema_keys (λ _, stateSchema)) as [_ Hc].
    destruct (Hc ∅ 1%positive (reachable_init _)) as [-> _]. reflexivity.
  - destruct (C9_schema_keys (λ _, stateSchema)) as [_ Hc].
    destruct (Hc _ 1%positive (reachable_step _ _ 1%positive (reachable_init _)))
      as [-> _].
    reflexivity.
  - destruct (C9_schema_keys (λ _, stateSchema)) as [Hs _].
    apply (Hs {| standard_validate _ := Pending; shape := None |}). reflexivity.
Defined.

(** C3.  In every state of the key cache, [pickCookies] returns the
    object that maps exactly the schema keys whose encoded name is in the
    jar with a value that [JSON.parse] accepts to the parsed value; it
    has no other entry, whatever else the jar holds, and malformed JSON
    is skipped, not raised. *)
Theorem C3_pickCookies_exact `{Runtime} (schemas : schemaRef → StandardSchemaV1)
    (c : keysCache) {Opts} (cookies : KitCookies Opts) (schema : schemaRef)
    (opts : option Opts) :
  reachable schemas c →
  ∀ k v,
    (pickCookies schemas c cookies schema opts).1 !! k = Some v
    ↔ k ∈ defaultKeySet (schemas schema)
      ∧ ∃ raw, kit_get cookies (encodedKey k) opts = Some raw
               ∧ JSON_parse raw = Some v.
Proof.
  intros Hc k v. unfold pickCookies.
  pose proof (getCachedKeys_keys schemas c schema Hc) as Hkeys.
  destruct (getCachedKeys schemas c schema) as [ks c'] eqn:Hg. simpl in *.
  rewrite foldl_pickOne_lookup, lookup_empty.
  rewrite <- keys_defaultKeySet, <- Hkeys, elem_of_list_to_set.
  unfold readCookie. case_bool_decide as Hin.
  - destruct (kit_get cookies (encodedKey k) opts) as [raw|]; simpl.
    + destruct (JSON_parse raw) as [parsed|] eqn:Hp.
      * split; [intros [= <-]; eauto|]. intros (_ & raw' & [= <-] & Hv). congruence.
      * split; [done|]. intros (_ & raw' & [= <-] & Hv). congruence.
    + split; [done|]. by intros (_ & raw' & ? & _).
  - split; [done|]. by intros [? _].
Qed.

(** C3 on the README schema: a jar with a valid [state], one with a
    malformed [state], and keys outside the schema. *)
Lemma C3_witness :
  (@pickCookies exampleRuntime (λ _, stateSchema) unit ∅
     (jarOf [("state", "false"); ("theme", "true")]) 1%positive None).1
  !! "state" = Some (VBoolean false)
  ∧ (@pickCookies exampleRuntime (λ _, stateSchema) unit ∅
       (jarOf [("state", "false"); ("theme", "true")]) 1%positive None).1
    !! "theme" = None
  ∧ (@pickCookies exampleRuntime (λ _, stateSchema) unit ∅
       (jarOf [("state", "{oops"); ("theme", "true")]) 1%positive None).1 = ∅.
Proof.
  split; [|split].
  - apply (@C3_pickCookies_exact exampleRuntime (λ _, stateSchema) ∅ unit
             (jarOf [("state", "false"); ("theme", "true")]) 1%positive None
             (reachable_init _)).
    split; [vm_compute; reflexivity|]. exists "false". split; reflexivity.
  - reflexivity.
  - reflexivity.
Defined.

(** ** The key check *)

Lemma foldl_shape_lookup (ks : list string) :
  ∀ (acc : obj) k,
    foldl (λ acc key, <[key := VBoolean true]> acc) acc ks !! k
    = if bool_decide (k ∈ ks) then Some (VBoolean true) else acc !! k.
Proof.
  induction ks as [|a ks IH]; intros acc k; simpl; [done|].
  rewrite IH. destruct (decide (k = a)) as [->|Hne].
  - rewrite (bool_decide_eq_true_2 (a ∈ a :: ks)) by apply list_elem_of_here.
    destruct (bool_decide (a ∈ ks)); [done|]. by rewrite lookup_insert_eq.
  - assert (Hiff : bool_decide (k ∈ a :: ks) = bool_decide (k ∈ ks)).
    { apply bool_decide_ext. rewrite elem_of_cons. tauto. }
    rewrite Hiff. destruct (bool_decide (k ∈ ks)); [done|].
    by rewrite lookup_insert_ne.
Qed.

(** [has] answers [true] for the schema keys and for every property
    name of [Object.prototype]. *)
Lemma has_new schema cookies k :
  Store.has (Store.new schema cookies) k
  = bool_decide (k ∈ keys (extractSchemaInfo schema))
    || bool_decide (k ∈ Object_prototype_names).
Proof.
  unfold Store.has, Store.new, obj_in. simpl.
  rewrite foldl_shape_lookup, lookup_empty.
  destruct (bool_decide (k ∈ keys (extractSchemaInfo schema))); reflexivity.
Qed.

Lemma has_assign this key v k : Store.has (Store.assign this key v) k = Store.has this k.
Proof. reflexivity. Qed.

(** ** C4: a pending validation result on the write path *)

(** C4, evaluated.  With a schema that validates a supplied [state]
    asynchronously, reading a cache that holds [state] raises the error
    for asynchronous validation, while [set] and [update] of [state]
    receive the same pending result and return normally: nothing is
    raised, written or committed. *)
Theorem C4_pending_on_write :
  Store.get (Store.new asyncCheckSchema {[ "state" := VBoolean false ]}) "state"
  = Throw "Async validation not supported"
  ∧ ∀ R : Runtime,
      @Store.set R (Store.new asyncCheckSchema ∅) "state" (VBoolean false)
      = Normal (Store.new asyncCheckSchema ∅,
                [Validate {[ "state" := VBoolean false ]} Pending])
      ∧ ∀ options,
          @Store.update R (Store.new asyncCheckSchema ∅) "state" (VBoolean false) options
          = Normal (Store.new asyncCheckSchema ∅,
                    [Validate {[ "state" := VBoolean false ]} Pending]).
Proof. split; [reflexivity|]. intros R. split; [reflexivity|]. intros; reflexivity. Qed.

(** ** C8: keys outside the schema *)

(** C8, evaluated.  [toString] is not a key of the README schema, yet
    [has('toString')] is true, and [set('toString', "x")], called
    directly or through the facade as [cookies.toString = "x"],
    validates, writes the cookie [toString] and stores a [toString]
    entry in the cache. *)
Theorem C8_inherited_name_passes_key_check :
  keys (extractSchemaInfo stateSchema) = ["state"]
  ∧ Store.has (Store.new stateSchema ∅) "toString" = true
  ∧ ∀ R : Runtime,
      @Store.set R (Store.new stateSchema ∅) "toString" (VString "x")
      = Normal (Store.assign (Store.new stateSchema ∅) "toString" (VFunction "toString"),
                [ Validate {[ "toString" := VString "x" ]}
                           (Success {[ "state" := VBoolean true ]});
                  JsCookieSet "toString" (JSON_stringify (VString "x")) None;
                  StateAssign "toString" (VFunction "toString") ])
      ∧ @handler_set R (@useCookies stateSchema ∅) (PropString "toString") (VString "x")
        = @Store.set R (Store.new stateSchema ∅) "toString" (VString "x").
Proof.
  split; [reflexivity|]. split; [reflexivity|]. intros R. split; reflexivity.
Qed.

(** Names that are neither schema keys nor properties of
    [Object.prototype] do stop at the key check. *)
Lemma unknown_key_noop `{Runtime} schema cookies k value options :
  k ∉ keys (extractSchemaInfo schema) →
  k ∉ Object_prototype_names →
  Store.has (Store.new schema cookies) k = false
  ∧ Store.update (Store.new schema cookies) k value options
    = Normal (Store.new schema cookies, []).
Proof.
  intros Hk Hp.
  assert (Hhas : Store.has (Store.new schema cookies) k = false).
  { rewrite has_new. by rewrite !bool_decide_eq_false_2. }
  split; [exact Hhas|]. unfold Store.update, Store.setValue. by rewrite Hhas.
Qed.

(** A write adds at most its own key to the cache, and only a key that
    passes the key check. *)
Lemma setValue_cache_dom `{Runtime} this key value options this' t :
  Store.setValue this key value options = Normal (this', t) →
  ∀ k, k ∈ dom (Store._cookies this') →
       k ∈ dom (Store._cookies this) ∨ (k = key ∧ Store.has this key = true).
Proof.
  intros Heq k.
  destruct (setValue_outcome this key value options) as [?|r ? ? ? ?|v Hhas ? ?];
    injection Heq as <- <-; auto.
  simpl. rewrite dom_insert_L, elem_of_union, elem_of_singleton. tauto.
Qed.

(** ** C5, C7, C6: the write pipeline *)

(** C5.  [set] and [update] run the same pipeline.  A call writes to
    the transport exactly when its validation of the candidate (the
    cache with the key replaced by the encoded value) succeeds; the only
    object it validates is that candidate, which it does when the key
    check and the equality check let the call through; and when that
    validation does not succeed the call returns normally with the
    store unchanged, no transport write and no notification. *)
Theorem C5_write_gated_by_validation `{Runtime} (this : Store.Cookies) (key : string)
    (value : JSValue) (options : option CookieAttributes) :
  Store.set this key value = Store.update this key value None
  ∧ ∃ this' t,
      Store.update this key value options = Normal (this', t)
      ∧ (0 < transportWrites t
         ↔ ∃ validated, Validate (candidate this key value) (Success validated) ∈ t)
      ∧ (∀ c r, Validate c r ∈ t →
                c = candidate this key value ∧ r = Store.validate this c)
      ∧ ((∃ r, Validate (candidate this key value) r ∈ t)
         ↔ Store.has this key = true
           ∧ Store.unchanged (obj_get (Store._cookies this) key) value = false)
      ∧ (∀ r, Validate (candidate this key value) r ∈ t → isSuccess r = false →
              this' = this ∧ transportWrites t = 0 ∧ notifications t = 0).
Proof.
  split; [reflexivity|]. unfold Store.update.
  destruct (setValue_outcome this key value options)
    as [Hskip|r Hhas Hdiff Hv Hr|v Hhas Hdiff Hv];
    eexists _, _; (split; [reflexivity|]).
  - unfold transportWrites. simpl. split; [|split; [|split]].
    + split; [lia|]. by intros [? ?%elem_of_nil].
    + by intros c r ?%elem_of_nil.
    + split; [by intros [? ?%elem_of_nil]|].
      intros [Hhas Hdiff]. rewrite Hhas, Hdiff in Hskip. discriminate.
    + by intros r ?%elem_of_nil.
  - unfold transportWrites, notifications.
    destruct r; try discriminate Hr.
    all: logged_cases (encodeForValidation_logged this key value);
      (split; [|split; [|split]]).
    all: try (split; [lia|]; intros [validated Hin]; by elem_of_trace Hin).
    all: try (intros c r' Hin; elem_of_trace Hin; inversion Hin; by subst).
    all: try (split; [by intros _; split | intros _; eexists; in_trace]).
    all: done.
  - unfold transportWrites, notifications.
    logged_cases (encodeForValidation_logged this key value);
      (split; [|split; [|split]]).
    all: try (split; [intros _; exists v; in_trace | lia]).
    all: try (intros c r' Hin; elem_of_trace Hin; inversion Hin; by subst).
    all: try (split; [by intros _; split | intros _; eexists; in_trace]).
    all: intros r Hin Hr; elem_of_trace Hin; inversion Hin; by subst.
Qed.

(** C5 on the README schema: [set('state', "bad")] is turned down by
    validation and changes nothing; [update('state', false, ...)] is
    accepted and written. *)
Lemma C5_witness :
  (∃ this' t,
      @Store.update exampleRuntime (Store.new stateSchema ∅) "state" (VString "bad") None
      = Normal (this', t)
      ∧ this' = Store.new stateSchema ∅ ∧ transportWrites t = 0 ∧ notifications t = 0)
  ∧ (∃ this' t,
      @Store.update exampleRuntime (Store.new stateSchema ∅) "state" (VBoolean false) None
      = Normal (this', t)
      ∧ 0 < transportWrites t).
Proof.
  split.
  - destruct (@C5_write_gated_by_validation exampleRuntime (Store.new stateSchema ∅)
                "state" (VString "bad") None)
      as (_ & this' & t & Heq & _ & _ & _ & Hfail).
    exists this', t. split; [exact Heq|].
    apply (Hfail (Failure [invalidType "state" "boolean"])); [|reflexivity].
    vm_compute in Heq. injection Heq as _ <-. apply list_elem_of_here.
  - destruct (@C5_write_gated_by_validation exampleRuntime (Store.new stateSchema ∅)
                "state" (VBoolean false) None)
      as (_ & this' & t & Heq & Hiff & _ & _ & _).
    exists this', t. split; [exact Heq|].
    apply Hiff. exists {[ "state" := VBoolean false ]}.
    vm_compute in Heq. injection Heq as _ <-. apply list_elem_of_here.
Defined.

(** C7.  When a call writes to the transport, validation of the
    candidate succeeded with some [validated] object, the one string
    persisted is [JSON.stringify] of the value the caller passed, under
    the key and with the attributes of the call, and the cache becomes
    the old cache with [validated[key]] stored under the key. *)
Theorem C7_persist_input_commit_validated `{Runtime} (this : Store.Cookies)
    (key : string) (value : JSValue) (options : option CookieAttributes) :
  0 < transportWrites (traceOf (Store.update this key value options)) →
  ∃ validated,
    Store.validate this (candidate this key value) = Success validated
    ∧ filter isJsCookieSet (traceOf (Store.update this key value options))
      = [JsCookieSet key (JSON_stringify value) options]
    ∧ cacheOf (Store.update this key value options)
      = Some (<[key := obj_get validated key]> (Store._cookies this))
    ∧ filter isStateAssign (traceOf (Store.update this key value options))
      = [StateAssign key (obj_get validated key)].
Proof.
  unfold Store.update, transportWrites.
  destruct (setValue_outcome this key value options) as [?|r ? ? Hv Hr|v ? ? Hv];
    simpl.
  - lia.
  - logged_cases (encodeForValidation_logged this key value); lia.
  - intros _. exists v. logged_cases (encodeForValidation_logged this key value); done.
Qed.

(** C7 on a schema that transforms its field: the cookie holds the
    input [false], the cache holds the validated [true]. *)
Lemma C7_witness :
  filter isJsCookieSet
    (traceOf (@Store.update exampleRuntime (Store.new negatingSchema ∅) "flag"
                (VBoolean false) None))
  = [JsCookieSet "flag" (Some "false") None]
  ∧ cacheOf (@Store.update exampleRuntime (Store.new negatingSchema ∅) "flag"
               (VBoolean false) None)
    = Some {[ "flag" := VBoolean true ]}.
Proof.
  destruct (@C7_persist_input_commit_validated exampleRuntime
              (Store.new negatingSchema ∅) "flag" (VBoolean false) None)
    as (validated & Hv & Hw & Hc & _).
  { vm_compute. lia. }
  vm_compute in Hv. injection Hv as <-.
  split; [exact Hw | exact Hc].
Defined.

(** C6 (amended).  A call of [set] whose value is equal to the current
    [cache[k]] under the check (strict equality when both are primitive,
    [dequal] otherwise) is a no-op.  Hence two calls [set(k, v)] in a
    row produce exactly one transport write and one notification when
    the first call passes the key check, the equality check and
    validation and the value it commits, [result.value[k]], is equal to
    [v] under that check. *)
Theorem C6_second_set_is_noop `{Runtime} (this : Store.Cookies) (key : string)
    (value : JSValue) :
  (Store.unchanged (obj_get (Store._cookies this) key) value = true →
   Store.set this key value = Normal (this, []))
  ∧ (∀ validated,
       Store.has this key = true →
       Store.unchanged (obj_get (Store._cookies this) key) value = false →
       Store.validate this (candidate this key value) = Success validated →
       Store.unchanged (obj_get validated key) value = true →
       Store.andThen (Store.set this key value) (λ this', Store.set this' key value)
       = Store.set this key value
       ∧ transportWrites
           (traceOf (Store.andThen (Store.set this key value)
                                   (λ this', Store.set this' key value))) = 1
       ∧ notifications
           (traceOf (Store.andThen (Store.set this key value)
                                   (λ this', Store.set this' key value))) = 1).
Proof.
  split.
  - intros Hsame. unfold Store.set, Store.setValue. rewrite Hsame.
    by destruct (Store.has this key).
  - intros validated Hhas Hdiff Hv Hsame. unfold Store.set.
    destruct (setValue_outcome this key value None) as [Hskip|r ? ? Hv' Hr|v ? ? Hv'].
    + rewrite Hhas, Hdiff in Hskip. discriminate.
    + rewrite Hv in Hv'. subst r. discriminate.
    + rewrite Hv in Hv'. injection Hv' as <-.
      assert (Hsecond : Store.setValue (Store.assign this key (obj_get validated key))
                          key value None
                        = Normal (Store.assign this key (obj_get validated key), [])).
      { unfold Store.setValue. rewrite has_assign, Hhas. simpl.
        rewrite (obj_get_own _ key (obj_get validated key)) by apply lookup_insert_eq.
        by rewrite Hsame. }
      unfold Store.andThen. rewrite Hsecond, app_nil_r.
      split; [done|]. unfold transportWrites, notifications. simpl.
      logged_cases (encodeForValidation_logged this key value); done.
Qed.

(** C6 on the README schema: the cache is empty, [set('state', false)]
    is called twice. *)
Lemma C6_witness :
  transportWrites
    (traceOf (Store.andThen
                (@Store.set exampleRuntime (Store.new stateSchema ∅) "state" (VBoolean false))
                (λ this', @Store.set exampleRuntime this' "state" (VBoolean false)))) = 1
  ∧ notifications
      (traceOf (Store.andThen
                  (@Store.set exampleRuntime (Store.new stateSchema ∅) "state" (VBoolean false))
                  (λ this', @Store.set exampleRuntime this' "state" (VBoolean false)))) = 1.
Proof.
  apply (proj2 (@C6_second_set_is_noop exampleRuntime (Store.new stateSchema ∅)
                  "state" (VBoolean false))
           {[ "state" := VBoolean false ]});
    reflexivity.
Defined.

(** C6 as stated fails.  With a schema that negates its field the
    committed value is never the value passed, and two calls
    [set('flag', false)] write twice and notify twice; with the README
    schema two calls [set('state', "bad")] fail validation and write
    nothing. *)
Lemma C6_counterexample :
  transportWrites
    (traceOf (Store.andThen
                (@Store.set exampleRuntime (Store.new negatingSchema ∅) "flag" (VBoolean false))
                (λ this', @Store.set exampleRuntime this' "flag" (VBoolean false)))) = 2
  ∧ notifications
      (traceOf (Store.andThen
                  (@Store.set exampleRuntime (Store.new negatingSchema ∅) "flag" (VBoolean false))
                  (λ this', @Store.set exampleRuntime this' "flag" (VBoolean false)))) = 2
  ∧ transportWrites
      (traceOf (Store.andThen
                  (@Store.set exampleRuntime (Store.new stateSchema ∅) "state" (VString "bad"))
                  (λ this', @Store.set exampleRuntime this' "state" (VString "bad")))) = 0.
Proof. repeat split; reflexivity. Qed.

(** ** C10: the facade and a schema key named [update] *)

(** C10.  For a schema with a key named [update], reading the facade's
    [update] property yields the wrapper that calls the store's
    [update], not the result of [get('update')], while assigning to the
    property is a call of the store's [set('update', value)]. *)
Theorem C10_update_routing `{Runtime} (schema : StandardSchemaV1) (cookies : obj)
    (value : JSValue) :
  "update" ∈ keys (extractSchemaInfo schema) →
  Store.has (useCookies schema cookies) "update" = true
  ∧ handler_get (useCookies schema cookies) (PropString "update") = UpdateWrapper
  ∧ handler_get (useCookies schema cookies) (PropString "update")
    ≠ SchemaValue (Store.get (useCookies schema cookies) "update")
  ∧ (∀ key v options,
       callUpdateWrapper (useCookies schema cookies) key v options
       = Store.update (useCookies schema cookies) key v options)
  ∧ handler_set (useCookies schema cookies) (PropString "update") value
    = Store.set (useCookies schema cookies) "update" value.
Proof.
  intros Hkey.
  assert (Hhas : Store.has (useCookies schema cookies) "update" = true).
  { unfold useCookies. rewrite has_new. by rewrite bool_decide_eq_true_2. }
  split; [exact Hhas|]. split; [reflexivity|]. split; [discriminate|].
  split; [reflexivity|]. unfold handler_set. by rewrite Hhas.
Qed.

(** C10 on [updateSchema]: the read gives the wrapper; the assignment
    of [true] persists the cookie [update] and commits it. *)
Lemma C10_witness :
  @handler_get (@useCookies updateSchema ∅) (PropString "update") = UpdateWrapper
  ∧ @handler_set exampleRuntime (@useCookies updateSchema ∅) (PropString "update")
      (VBoolean true)
    = Normal (Store.assign (@useCookies updateSchema ∅) "update" (VBoolean true),
              [ Validate {[ "update" := VBoolean true ]}
                         (Success {[ "update" := VBoolean true ]});
                JsCookieSet "update" (Some "true") None;
                StateAssign "update" (VBoolean true) ]).
Proof.
  destruct (@C10_update_routing exampleRuntime updateSchema ∅ (VBoolean true))
    as (_ & Hget & _ & _ & Hset).
  { vm_compute. apply list_elem_of_here. }
  split; [exact Hget|]. rewrite Hset. reflexivity.
Defined.

(* ===================================================================== *)
(** * Further properties of the code *)
(* ===================================================================== *)

(** ** The cookie-name encoding *)

Lemma list_ascii_of_string_app (a b : string) :
  list_ascii_of_string (a +:+ b) = list_ascii_of_string a ++ list_ascii_of_string b.
Proof. induction a as [|c a IH]; simpl; [done|]. by rewrite IH. Qed.

Lemma length_append (a b : string) :
  String.length (a +:+ b) = (String.length a + String.length b)%nat.
Proof. induction a as [|c a IH]; simpl; [done|]. by rewrite IH. Qed.

Lemma unescapeName_step (c : ascii) (rest : string) :
  unescapeName (nameOfChar c +:+ rest) = String c (unescapeName rest).
Proof. destruct c as [[] [] [] [] [] [] [] []]; reflexivity. Qed.

Lemma unescapeName_encodedKey (key : string) : unescapeName (encodedKey key) = key.
Proof.
  rewrite encodedKey_chars.
  induction key as [|c rest IH]; simpl; [done|].
  by rewrite unescapeName_step, IH.
Qed.

Lemma nameOfChar_cases (c : ascii) :
  (keptInName c = true ∧ nameOfChar c = String c "")
  ∨ (keptInName c = false ∧ String.length (nameOfChar c) = 3%nat
     ∧ nameOfChar c = percentEncode c).
Proof.
  unfold nameOfChar. destruct (keptInName c); [left|right]; repeat split; done.
Qed.

Lemma length_nameOfChars (key : string) :
  (String.length key ≤ String.length (nameOfChars key))%nat
  ∧ (String.length (nameOfChars key) ≤ 3 * String.length key)%nat.
Proof.
  induction key as [|c rest [IH1 IH2]]; simpl; [lia|].
  rewrite length_append.
  destruct (nameOfChar_cases c) as [[_ ->]|(_ & -> & _)]; simpl; lia.
Qed.

(** X1.  Distinct keys are read and looked up under distinct cookie
    names: [encodedKey] is injective. *)
Theorem X1_encodedKey_injective (key1 key2 : string) :
  key1 ≠ key2 → encodedKey key1 ≠ encodedKey key2.
Proof.
  intros Hne Heq. apply Hne.
  rewrite <- (unescapeName_encodedKey key1), <- (unescapeName_encodedKey key2).
  by rewrite Heq.
Qed.

(** X1 on a key and the key that spells its escape: [(] is read under
    [%28], [%28] under [%2528]. *)
Lemma X1_witness :
  encodedKey "(" = "%28" ∧ encodedKey "%28" = "%2528"
  ∧ encodedKey "(" ≠ encodedKey "%28".
Proof.
  split; [reflexivity|]. split; [reflexivity|].
  apply (X1_encodedKey_injective "(" "%28"). discriminate.
Defined.

Lemma forallb_Forall {A} (f : A → bool) (l : list A) :
  forallb f l = true → Forall (λ x, f x = true) l.
Proof.
  induction l as [|x l IH]; simpl; intros Hl; [constructor|].
  apply andb_true_iff in Hl as [Hx Hl]. constructor; auto.
Qed.

Lemma nameOfChar_alphabet (c : ascii) :
  forallb nameChar (list_ascii_of_string (nameOfChar c)) = true.
Proof. destruct c as [[] [] [] [] [] [] [] []]; reflexivity. Qed.

(** X2.  A cookie name produced by [encodedKey] consists of ASCII
    letters and digits, the characters [- _ . ! ~ * ' # $ & + ^ ` |] and
    [%] only: it holds no [=], [;], [,], space, quote, backslash,
    parenthesis, control character or byte above 126. *)
Theorem X2_encodedKey_alphabet (key : string) :
  Forall (λ c, nameChar c = true) (list_ascii_of_string (encodedKey key))
  ∧ ∀ c, c ∈ list_ascii_of_string (encodedKey key) →
         (c ∉ list_ascii_of_string "=;, ()\")
         ∧ (nat_of_ascii c ≠ 34%nat)
         ∧ (32 < nat_of_ascii c < 127)%nat.
Proof.
  assert (Hall : Forall (λ c, nameChar c = true)
                        (list_ascii_of_string (encodedKey key))).
  { rewrite encodedKey_chars.
    induction key as [|c rest IH]; simpl; [constructor|].
    rewrite list_ascii_of_string_app. apply Forall_app. split; [|exact IH].
    apply forallb_Forall, nameOfChar_alphabet. }
  split; [exact Hall|].
  intros c Hc. rewrite Forall_forall in Hall. specialize (Hall c Hc).
  clear Hc. revert Hall.
  destruct c as [[] [] [] [] [] [] [] []];
    first [ discriminate
          | intros _; split;
            [ apply (bool_decide_unpack _); vm_compute; exact I
            | vm_compute; split; [discriminate|lia] ] ].
Qed.

Lemma nameOfChars_kept (key : string) :
  forallb keptInName (list_ascii_of_string key) = true → nameOfChars key = key.
Proof.
  induction key as [|c rest IH]; simpl; [done|].
  intros [Hc Hrest]%andb_true_iff. unfold nameOfChar. rewrite Hc. simpl.
  by rewrite IH.
Qed.

Lemma nameOfChars_fixed (key : string) :
  nameOfChars key = key → forallb keptInName (list_ascii_of_string key) = true.
Proof.
  induction key as [|c rest IH]; simpl; [done|].
  destruct (nameOfChar_cases c) as [[Hk ->]|(Hk & Hlen & Henc)].
  - simpl. intros [= Hrest]. rewrite Hk. simpl. by apply IH.
  - rewrite Henc. unfold percentEncode. simpl. intros [= _ Hrest].
    apply (f_equal String.length) in Hrest. simpl in Hrest.
    rewrite length_append in Hrest. simpl in Hrest.
    pose proof (length_nameOfChars rest) as [Hle _]. lia.
Qed.

(** X3.  The cookie name is the key itself exactly when the key is made
    of letters, digits and [- _ . ! ~ * ' # $ & + ^ ` |]; it is never
    shorter than the key and at most three times as long. *)
Theorem X3_encodedKey_identity_and_length (key : string) :
  (encodedKey key = key ↔ forallb keptInName (list_ascii_of_string key) = true)
  ∧ (String.length key ≤ String.length (encodedKey key))%nat
  ∧ (String.length (encodedKey key) ≤ 3 * String.length key)%nat.
Proof.
  rewrite encodedKey_chars. split.
  - split; [apply nameOfChars_fixed | apply nameOfChars_kept].
  - apply length_nameOfChars.
Qed.

(** X3 on an identifier and on a key with a space. *)
Lemma X3_witness :
  encodedKey "session_id" = "session_id"
  ∧ encodedKey "my key" ≠ "my key".
Proof.
  split.
  - apply (X3_encodedKey_identity_and_length "session_id"). reflexivity.
  - intros Heq. apply (X3_encodedKey_identity_and_length "my key") in Heq.
    discriminate Heq.
Defined.

(** ** The key cache and [pickCookies] *)

(** X4.  [getCachedKeys] records what it returns: the entry of the
    schema holds the keys returned, no other entry changes, an entry
    already present is kept, and a later call for the same schema
    returns the recorded keys and leaves the cache alone, whatever the
    schema would validate to by then. *)
Theorem X4_getCachedKeys_memoized (schemas schemas' : schemaRef → StandardSchemaV1)
    (c : keysCache) (r : schemaRef) :
  (getCachedKeys schemas c r).2 !! r = Some (getCachedKeys schemas c r).1
  ∧ (∀ r', r' ≠ r → (getCachedKeys schemas c r).2 !! r' = c !! r')
  ∧ (∀ ks, c !! r = Some ks → getCachedKeys schemas c r = (ks, c))
  ∧ getCachedKeys schemas' (getCachedKeys schemas c r).2 r
    = getCachedKeys schemas c r.
Proof.
  assert (Hrec : (getCachedKeys schemas c r).2 !! r
                 = Some (getCachedKeys schemas c r).1).
  { unfold getCachedKeys. destruct (c !! r) as [ks|] eqn:Hr; simpl; [done|].
    by rewrite lookup_insert_eq. }
  split; [exact Hrec|]. split; [|split].
  - intros r' Hne. unfold getCachedKeys.
    destruct (c !! r) as [ks|] eqn:Hr; simpl; [done|]. by rewrite lookup_insert_ne.
  - intros ks Hks. unfold getCachedKeys. by rewrite Hks.
  - unfold getCachedKeys at 1. rewrite Hrec.
    by destruct (getCachedKeys schemas c r).
Qed.

(** X4 on the README schema: the second call answers from the cache
    even when the table then holds a schema without defaults. *)
Lemma X4_witness :
  getCachedKeys (λ _, requiredSchema)
    (getCachedKeys (λ _, stateSchema) ∅ 1%positive).2 1%positive
  = (["state"], {[ 1%positive := ["state"] ]})
  ∧ (getCachedKeys (λ _, requiredSchema) ∅ 1%positive).1 = [].
Proof.
  split; [|reflexivity].
  destruct (X4_getCachedKeys_memoized (λ _, stateSchema) (λ _, requiredSchema)
              ∅ 1%positive) as (_ & _ & _ & ->).
  reflexivity.
Defined.

Lemma pickCookies_fold `{Runtime} schemas c {Opts} (cookies : KitCookies Opts) r opts :
  pickCookies schemas c cookies r opts
  = (foldl (pickOne cookies opts) ∅ (getCachedKeys schemas c r).1,
     (getCachedKeys schemas c r).2).
Proof. unfold pickCookies. by destruct (getCachedKeys schemas c r). Qed.

(** X5.  In every state of the key cache, what [pickCookies] returns
    is what it returns on a fresh cache; it depends on the jar only
    through the entries under the encoded names of the schema keys; its
    keys are schema keys; and the cache it leaves is again a state the
    cache can be in. *)
Theorem X5_pickCookies_frame `{Runtime} (schemas : schemaRef → StandardSchemaV1)
    (c : keysCache) {Opts} (cookies : KitCookies Opts) (r : schemaRef)
    (opts : option Opts) :
  reachable schemas c →
  (pickCookies schemas c cookies r opts).1 = (pickCookies schemas ∅ cookies r opts).1
  ∧ (∀ cookies' : KitCookies Opts,
       (∀ k, k ∈ defaultKeySet (schemas r) →
             kit_get cookies' (encodedKey k) opts = kit_get cookies (encodedKey k) opts) →
       (pickCookies schemas c cookies' r opts).1 = (pickCookies schemas c cookies r opts).1)
  ∧ dom (pickCookies schemas c cookies r opts).1 ⊆ defaultKeySet (schemas r)
  ∧ reachable schemas (pickCookies schemas c cookies r opts).2.
Proof.
  intros Hc. rewrite !pickCookies_fold. simpl.
  rewrite (getCachedKeys_keys schemas c r Hc).
  rewrite (getCachedKeys_keys schemas ∅ r (reachable_init _)).
  split; [done|]. split; [|split].
  - intros cookies' Hsame. rewrite pickCookies_fold. simpl.
    rewrite (getCachedKeys_keys schemas c r Hc).
    apply map_eq. intros k. rewrite !foldl_pickOne_lookup.
    case_bool_decide as Hk; [|done].
    unfold readCookie. rewrite Hsame; [done|].
    rewrite <- keys_defaultKeySet. by apply elem_of_list_to_set.
  - intros k [v Hv]%elem_of_dom. rewrite foldl_pickOne_lookup, lookup_empty in Hv.
    case_bool_decide as Hk; [|done].
    rewrite <- keys_defaultKeySet. by apply elem_of_list_to_set.
  - by apply reachable_step.
Qed.

(** X5 on the README schema: a jar with [state] and other cookies
    gives what the jar with [state] alone gives. *)
Lemma X5_witness :
  (@pickCookies exampleRuntime (λ _, stateSchema) unit ∅
     (jarOf [("theme", "true"); ("state", "false"); ("sid", "null")]) 1%positive None).1
  = (@pickCookies exampleRuntime (λ _, stateSchema) unit ∅
       (jarOf [("state", "false")]) 1%positive None).1.
Proof.
  apply (@X5_pickCookies_frame exampleRuntime (λ _, stateSchema) ∅ unit
           (jarOf [("state", "false")]) 1%positive None (reachable_init _)).
  intros k Hk. assert (k = "state") as -> by set_solver. reflexivity.
Defined.

(** ** Schema introspection *)

Lemma foldl_encoders (l : list (string * fieldSchema)) :
  NoDup l.*1 →
  ∀ acc : gmap string encoder,
    foldl (λ encoders '(key, fieldSchema),
             match extractZodCodecEncoder fieldSchema with
             | Some encoder => <[key := encoder]> encoders
             | None => encoders
             end) acc l
    = omap extractZodCodecEncoder (list_to_map l : gmap string fieldSchema) ∪ acc.
Proof.
  induction l as [|[k0 fs] l IH]; intros Hnd acc; simpl.
  - by rewrite omap_empty, (left_id ∅ _).
  - apply NoDup_cons in Hnd as [Hk0 Hnd]. rewrite (IH Hnd).
    apply map_eq. intros k. rewrite !lookup_union, !lookup_omap.
    destruct (decide (k = k0)) as [->|Hne].
    + rewrite lookup_insert_eq. simpl.
      rewrite (not_elem_of_list_to_map_1 _ _ Hk0). simpl.
      destruct (extractZodCodecEncoder fs) as [f|]; simpl.
      * rewrite lookup_insert_eq. by destruct (acc !! k0).
      * by destruct (acc !! k0).
    + rewrite lookup_insert_ne by done.
      destruct (extractZodCodecEncoder fs) as [f|]; [|done].
      by rewrite lookup_insert_ne.
Qed.

(** X6.  The loop over [Object.entries(schema.shape)] registers an
    encoder for exactly the fields of the shape in which
    [extractZodCodecEncoder] finds one, and only when validating the
    empty candidate succeeded: otherwise no encoder is registered, also
    for a shape that declares codecs.  The store uses this map as it is. *)
Theorem X6_codecEncoders_exact (schema : StandardSchemaV1) (k : string) (f : encoder) :
  (codecEncoders (extractSchemaInfo schema) !! k = Some f
   ↔ isSuccess (standard_validate schema ∅) = true
     ∧ ∃ sh fs, shape schema = Some sh ∧ sh !! k = Some fs
                ∧ extractZodCodecEncoder fs = Some f)
  ∧ (isSuccess (standard_validate schema ∅) = false →
     codecEncoders (extractSchemaInfo schema) = ∅)
  ∧ (∀ cookies, Store._codecEncoders (Store.new schema cookies)
                = codecEncoders (extractSchemaInfo schema)).
Proof.
  split; [|split; [|done]].
  - unfold extractSchemaInfo.
    destruct (standard_validate schema ∅); simpl;
      try (rewrite lookup_empty; split; [done | by intros [? _]]).
    destruct (shape schema) as [sh|]; simpl.
    + unfold Object_entries. rewrite foldl_encoders by apply NoDup_fst_map_to_list.
      rewrite list_to_map_to_list, (right_id ∅ _), lookup_omap.
      split.
      * intros Hk. split; [done|].
        destruct (sh !! k) as [fs|] eqn:Hfs; [|done]. by exists sh, fs.
      * intros (_ & sh' & fs & [= <-] & -> & Hf). done.
    + rewrite lookup_empty. split; [done|]. by intros (_ & ? & ? & ? & _).
  - unfold extractSchemaInfo. by destruct (standard_validate schema ∅).
Qed.

(** X6 on the schema with the on/off codec, and on a shape with the
    same codec whose schema fails on the empty candidate. *)
Lemma X6_witness :
  (∃ f, codecEncoders (extractSchemaInfo codecSchema) !! "dark" = Some f
        ∧ f (VBoolean true) = Some (VString "on"))
  ∧ codecEncoders (extractSchemaInfo
                     {| standard_validate := standard_validate requiredSchema;
                        shape := shape codecSchema |}) = ∅.
Proof.
  split.
  - exists onOffEncoder. split; [|reflexivity].
    apply (X6_codecEncoders_exact codecSchema "dark" onOffEncoder).
    split; [reflexivity|]. eexists _, _. split; [reflexivity|].
    split; reflexivity.
  - apply (X6_codecEncoders_exact
             {| standard_validate := standard_validate requiredSchema;
                shape := shape codecSchema |} "dark" onOffEncoder).
    reflexivity.
Defined.

(** ** The store *)

(** X13.  For a store built by the constructor, [has(k)] is true
    exactly for the keys of the value of validating the empty candidate
    and for the property names of [Object.prototype]; it depends
    neither on the initial cookies nor on the value of any key. *)
Theorem X13_has_exact (schema : StandardSchemaV1) (cookies cookies' : obj) (k : string) :
  (Store.has (Store.new schema cookies) k = true
   ↔ k ∈ defaultKeySet schema ∨ k ∈ Object_prototype_names)
  ∧ Store.has (Store.new schema cookies) k = Store.has (Store.new schema cookies') k.
Proof.
  split; [|by rewrite !has_new].
  rewrite has_new, orb_true_iff, !bool_decide_eq_true.
  by rewrite <- keys_defaultKeySet, elem_of_list_to_set.
Qed.

Lemma strict_equals_refl (v : JSValue) : selfIdentical v = true → strict_equals v v = true.
Proof.
  destruct v as [| |b|[|z]|s|xs|ps|f|]; simpl; try done; intros _.
  - by destruct b.
  - apply Z.eqb_refl.
  - apply String.eqb_refl.
  - apply String.eqb_refl.
Qed.

(** X12.  Writing to a key the value its cache entry already holds is a
    no-op for every value that is not an object and not [NaN], whatever
    [dequal] is: nothing is validated, written or assigned.  For [NaN]
    the equality check does not hold. *)
Theorem X12_same_primitive_suppressed `{Runtime} (this : Store.Cookies) (key : string)
    (v : JSValue) (options : option CookieAttributes) :
  (selfIdentical v = true →
   Store._cookies this !! key = Some v →
   Store.update this key v options = Normal (this, []))
  ∧ Store.unchanged (VNumber NaN) (VNumber NaN) = false.
Proof.
  split; [|reflexivity].
  intros Hv Hk. unfold Store.update, Store.setValue.
  destruct (Store.has this key); simpl; [|done].
  rewrite (obj_get_own _ _ _ Hk).
  assert (Hsame : Store.unchanged v v = true).
  { pose proof (strict_equals_refl v Hv) as Hrefl. unfold Store.unchanged.
    destruct v as [| |b|[|z]|s|xs|ps|f|]; try discriminate Hv; exact Hrefl. }
  by rewrite Hsame.
Qed.

(** X12 on the README schema with [state] already [false]. *)
Lemma X12_witness :
  @Store.update exampleRuntime (Store.new stateSchema {[ "state" := VBoolean false ]})
    "state" (VBoolean false) None
  = Normal (Store.new stateSchema {[ "state" := VBoolean false ]}, []).
Proof.
  apply (@X12_same_primitive_suppressed exampleRuntime
           (Store.new stateSchema {[ "state" := VBoolean false ]}) "state"
           (VBoolean false) None); reflexivity.
Defined.

Lemma setValue_options `{Runtime} this key value options :
  Store.setValue this key value options
  = match Store.setValue this key value None with
    | Normal (this', t) => Normal (this', withOptions options <$> t)
    | Throw e => Throw e
    end.
Proof.
  unfold Store.setValue.
  destruct (Store.has this key); simpl; [|done].
  destruct (Store.unchanged _ _); [done|].
  unfold Store.encodeForValidation.
  destruct (Store._codecEncoders this !! key) as [f|]; [destruct (f value)|];
    simpl; by destruct (Store.validate this _).
Qed.

(** X14.  [update(key, value, options)] does what [set(key, value)]
    does: the same store results and the same trace, except that each
    transport write carries [options] in place of no attributes. *)
Theorem X14_update_is_set_with_options `{Runtime} (this : Store.Cookies) (key : string)
    (value : JSValue) (options : option CookieAttributes) :
  cacheOf (Store.update this key value options) = cacheOf (Store.set this key value)
  ∧ traceOf (Store.update this key value options)
    = withOptions options <$> traceOf (Store.set this key value)
  ∧ Store.update this key value None = Store.set this key value.
Proof.
  unfold Store.update, Store.set. rewrite setValue_options.
  by destruct (Store.setValue this key value None) as [[this' t]|e].
Qed.

Lemma includes_spec (p : list pathItem) (k : string) :
  includes p k = true ↔ PathKey (KString k) ∈ p.
Proof.
  unfold includes. induction p as [|item p IH]; simpl.
  - split; [done | by intros ?%elem_of_nil].
  - rewrite orb_true_iff, IH, elem_of_cons. split.
    + intros [Hitem|Hin]; [left|by right].
      destruct item as [[s| |]|]; try discriminate Hitem.
      by apply String.eqb_eq in Hitem as ->.
    + intros [<-|Hin]; [left|by right]. apply String.eqb_refl.
Qed.

Lemma referenced_spec (issues : list issue) (k : string) :
  referenced issues k = true
  ↔ ∃ i p, i ∈ issues ∧ path i = Some p ∧ PathKey (KString k) ∈ p.
Proof.
  unfold referenced. induction issues as [|i issues IH]; simpl.
  - split; [done|]. by intros (? & ? & ?%elem_of_nil & _).
  - rewrite orb_true_iff, IH. split.
    + intros [Hi|(i' & p & Hin & Hp & Hk)].
      * destruct (path i) as [p|] eqn:Hp; [|done].
        exists i, p. split; [apply list_elem_of_here|]. split; [done|].
        by apply includes_spec.
      * exists i', p. split; [by apply list_elem_of_further|]. done.
    + intros (i' & p & [->|Hin]%elem_of_cons & Hp & Hk).
      * left. rewrite Hp. by apply includes_spec.
      * right. by exists i', p.
Qed.

(** X9.  When the cache as a whole fails validation, an issue hides a
    key exactly when the key is, as a string, an element of the issue's
    path.  A key that is in the cache and hidden by no issue is read as
    the cache holds it, so an issue without a path, with an empty path
    or with the key in a [{ key }] segment lets the cached value through
    even when it is the value objected to; a key that is hidden, or not
    in the cache, is read from the defaults. *)
Theorem X9_get_isolates_invalid_keys (this : Store.Cookies) (key : string)
    (issues : list issue) :
  Store.validate this (Store._cookies this) = Failure issues →
  (referenced issues key = true
   ↔ ∃ i p, i ∈ issues ∧ path i = Some p ∧ PathKey (KString key) ∈ p)
  ∧ (∀ v, Store._cookies this !! key = Some v → referenced issues key = false →
          Store.get this key = Normal v)
  ∧ (referenced issues key = true ∨ Store._cookies this !! key = None →
     Store.get this key = Normal (obj_get (defaultsOf this) key)).
Proof.
  intros Hfail. split; [apply referenced_spec|].
  unfold Store.get, Store.getTypedValue. rewrite Hfail.
  fold (defaultsOf this). rewrite spread_lookup. unfold mergedLookup.
  split.
  - intros v Hv Hr.
    by rewrite (proj2 (validParams_lookup issues _ key v) (conj Hv Hr)).
  - intros Hor.
    destruct (Object_fromEntries _ !! key) as [v|] eqn:Hv; [|done].
    apply validParams_lookup in Hv as [Hv Hr]. destruct Hor; congruence.
Qed.

(** X9 on the two-field schema with [a] invalid: [b] comes from the
    cache, [a] from the defaults; and on a schema that names [a] in a
    [{ key }] segment: the invalid [a] is returned as the cache holds it. *)
Lemma X9_witness :
  Store.get (Store.new twoFields {[ "a" := VString "bad"; "b" := VBoolean false ]}) "b"
  = Normal (VBoolean false)
  ∧ Store.get (Store.new twoFields {[ "a" := VString "bad"; "b" := VBoolean false ]}) "a"
    = Normal (VBoolean false)
  ∧ Store.get (Store.new segmentPathSchema {[ "a" := VString "bad" ]}) "a"
    = Normal (VString "bad").
Proof.
  assert (Hfail : Store.validate
                    (Store.new twoFields {[ "a" := VString "bad"; "b" := VBoolean false ]})
                    {[ "a" := VString "bad"; "b" := VBoolean false ]}
                  = Failure [invalidType "a" "boolean"]) by reflexivity.
  assert (Hseg : Store.validate
                   (Store.new segmentPathSchema {[ "a" := VString "bad" ]})
                   {[ "a" := VString "bad" ]}
                 = Failure [ {| message := "Invalid type: expected boolean";
                                path := Some [PathSegment (KString "a")] |} ])
    by reflexivity.
  destruct (X9_get_isolates_invalid_keys _ "b" _ Hfail) as (_ & Hb & _).
  destruct (X9_get_isolates_invalid_keys _ "a" _ Hfail) as (_ & _ & Ha).
  destruct (X9_get_isolates_invalid_keys _ "a" _ Hseg) as (_ & Hkept & _).
  split; [|split].
  - apply Hb; reflexivity.
  - rewrite Ha; [reflexivity|]. left. reflexivity.
  - apply Hkept; reflexivity.
Defined.

Lemma encodeForValidation_cases `{Runtime} this key value :
  (Store.encodeForValidation this key value = (value, [ConsoleError key])
   ∧ ∃ f, Store._codecEncoders this !! key = Some f ∧ f value = None)
  ∨ ((Store.encodeForValidation this key value).2 = []
     ∧ ∀ f, Store._codecEncoders this !! key = Some f → f value ≠ None).
Proof.
  unfold Store.encodeForValidation.
  destruct (Store._codecEncoders this !! key) as [f|] eqn:Hf;
    [destruct (f value) eqn:Hfv|].
  - right. split; [done|]. intros f' [= <-]. by rewrite Hfv.
  - left. split; [done|]. by exists f.
  - right. split; [done|]. by intros f' ?.
Qed.

(** X7.  [console.error] is called exactly when the call gets past the
    key check and the equality check and the key's encoder throws.  In
    that case the candidate holds the value as passed, and the cookie is
    written exactly when that candidate validates: an encoder that
    throws does not stop the write. *)
Theorem X7_encoder_exception_falls_back `{Runtime} (this : Store.Cookies) (key : string)
    (value : JSValue) (options : option CookieAttributes) :
  (∀ k, ConsoleError k ∈ traceOf (Store.update this key value options)
        ↔ k = key ∧ Store.has this key = true
          ∧ Store.unchanged (obj_get (Store._cookies this) key) value = false
          ∧ ∃ f, Store._codecEncoders this !! key = Some f ∧ f value = None)
  ∧ (∀ f, Store._codecEncoders this !! key = Some f → f value = None →
          candidate this key value = <[key := value]> (Store._cookies this)
          ∧ (0 < transportWrites (traceOf (Store.update this key value options))
             ↔ Store.has this key = true
               ∧ Store.unchanged (obj_get (Store._cookies this) key) value = false
               ∧ isSuccess (Store.validate this (<[key := value]> (Store._cookies this)))
                 = true)).
Proof.
  split.
  - intros k. unfold Store.update.
    destruct (setValue_outcome this key value options)
      as [Hskip|r Hhas Hdiff Hv Hr|v Hhas Hdiff Hv]; simpl.
    + split; [by intros ?%elem_of_nil|].
      intros (_ & Hhas & Hdiff & _). rewrite Hhas, Hdiff in Hskip. discriminate.
    + destruct (encodeForValidation_cases this key value)
        as [[-> Hf]|[-> Hf]]; simpl.
      * split; [intros Hin; elem_of_trace Hin; by inversion Hin | intros [-> _]; in_trace].
      * split; [intros Hin; by elem_of_trace Hin|].
        intros (_ & _ & _ & f & Hf1 & Hf2). by destruct (Hf f Hf1).
    + destruct (encodeForValidation_cases this key value)
        as [[-> Hf]|[-> Hf]]; simpl.
      * split; [intros Hin; elem_of_trace Hin; by inversion Hin | intros [-> _]; in_trace].
      * split; [intros Hin; by elem_of_trace Hin|].
        intros (_ & _ & _ & f & Hf1 & Hf2). by destruct (Hf f Hf1).
  - intros f Hf Hthrow.
    assert (Hcand : candidate this key value = <[key := value]> (Store._cookies this)).
    { unfold candidate, Store.encodeForValidation. by rewrite Hf, Hthrow. }
    split; [exact Hcand|]. rewrite <- Hcand. unfold Store.update, transportWrites.
    destruct (setValue_outcome this key value options)
      as [Hskip|r Hhas Hdiff Hv Hr|v Hhas Hdiff Hv]; simpl.
    + split; [lia|]. intros (Hhas & Hdiff & _). rewrite Hhas, Hdiff in Hskip. discriminate.
    + rewrite Hv, Hr.
      logged_cases (encodeForValidation_logged this key value);
        (split; [lia | by intros (_ & _ & ?)]).
    + rewrite Hv.
      logged_cases (encodeForValidation_logged this key value);
        (split; [done | lia]).
Qed.

(** X7 on the on/off codec: the encoder throws on the string ["on"],
    the string is validated as it is, and the cookie is written. *)
Lemma X7_witness :
  ConsoleError "dark"
  ∈ traceOf (@Store.update exampleRuntime (Store.new codecSchema ∅) "dark" (VString "on") None)
  ∧ 0 < transportWrites
          (traceOf (@Store.update exampleRuntime (Store.new codecSchema ∅) "dark"
                      (VString "on") None)).
Proof.
  destruct (@X7_encoder_exception_falls_back exampleRuntime (Store.new codecSchema ∅)
              "dark" (VString "on") None) as [Herr Hwrite].
  split.
  - apply Herr. split; [done|]. split; [reflexivity|]. split; [reflexivity|].
    exists onOffEncoder. split; reflexivity.
  - apply (Hwrite onOffEncoder); [reflexivity | reflexivity |].
    split; [reflexivity|]. split; reflexivity.
Defined.

(** ** Sequences of writes *)

Lemma has_new_true schema cookies k :
  Store.has (Store.new schema cookies) k = true →
  k ∈ defaultKeySet schema ∨ k ∈ Object_prototype_names.
Proof.
  rewrite has_new, orb_true_iff, !bool_decide_eq_true.
  by rewrite <- keys_defaultKeySet, elem_of_list_to_set.
Qed.

(** What one call leaves in place, and what its trace holds. *)
Lemma setValue_step `{Runtime} this key value options this' t :
  Store.setValue this key value options = Normal (this', t) →
  Store._schema this' = Store._schema this
  ∧ Store._schemaShape this' = Store._schemaShape this
  ∧ Store._codecEncoders this' = Store._codecEncoders this
  ∧ (∀ k, k ≠ key → Store._cookies this' !! k = Store._cookies this !! k)
  ∧ transportWrites t = notifications t
  ∧ (transportWrites t ≤ 1)%nat
  ∧ (∀ name v o, JsCookieSet name v o ∈ t →
       name = key ∧ v = JSON_stringify value ∧ o = options
       ∧ Store.has this key = true).
Proof.
  intros Heq.
  destruct (setValue_outcome this key value options)
    as [Hskip|r Hhas Hdiff Hv Hr|v Hhas Hdiff Hv];
    injection Heq as <- <-; unfold transportWrites, notifications;
    (split; [done|]); (split; [done|]); (split; [done|]).
  - simpl. split; [done|]. split; [done|]. split; [lia|].
    by intros name v o ?%elem_of_nil.
  - split; [done|].
    logged_cases (encodeForValidation_logged this key value);
      (split; [done|]); (split; [lia|]);
      intros name v o Hin; by elem_of_trace Hin.
  - split; [intros k Hne; simpl; by rewrite lookup_insert_ne|].
    logged_cases (encodeForValidation_logged this key value);
      (split; [done|]); (split; [lia|]);
      intros name v' o Hin; elem_of_trace Hin; by inversion Hin.
Qed.

Lemma update_normal `{Runtime} this key value options :
  ∃ this' t, Store.update this key value options = Normal (this', t).
Proof.
  unfold Store.update.
  destruct (setValue_outcome this key value options); eauto.
Qed.

Lemma runWrites_invariant `{Runtime} (calls : list writeCall) :
  ∀ this,
    (∀ k, k ∈ dom (Store._cookies (runWrites this calls).1) →
          k ∈ dom (Store._cookies this) ∨ Store.has this k = true)
    ∧ Store._schemaShape (runWrites this calls).1 = Store._schemaShape this
    ∧ (∀ k, k ∉ call_key <$> calls →
            Store._cookies (runWrites this calls).1 !! k = Store._cookies this !! k).
Proof.
  induction calls as [|c rest IH]; intros this; simpl; [by auto|].
  destruct (update_normal this (call_key c) (call_value c) (call_options c))
    as (this' & t & Heq).
  rewrite Heq. destruct (IH this') as (IHdom & IHshape & IHframe).
  destruct (runWrites this' rest) as [this'' t'] eqn:Hrun. simpl in *.
  destruct (setValue_step _ _ _ _ _ _ Heq) as (_ & Hshape & _ & Hframe & _).
  split; [|split].
  - intros k Hk. destruct (IHdom k Hk) as [Hk'|Hk'].
    + destruct (setValue_cache_dom _ _ _ _ _ _ Heq k Hk') as [?|[-> ?]]; auto.
    + right. unfold Store.has in *. by rewrite <- Hshape.
  - by rewrite IHshape.
  - intros k Hk. rewrite not_elem_of_cons in Hk. destruct Hk as [Hne Hk].
    rewrite (IHframe k Hk). by apply Hframe.
Qed.

(** X10.  Whatever calls of [set] and [update] are made on a store
    built by the constructor, the cache never holds a key other than
    those it started with, the schema keys and the property names of
    [Object.prototype]; [has] keeps answering the same; and the entry of
    a key that no call names is what it was at the start, also when
    validation returned other values for it. *)
Theorem X10_cache_invariant `{Runtime} (schema : StandardSchemaV1) (cookies : obj)
    (calls : list writeCall) :
  dom (Store._cookies (runWrites (Store.new schema cookies) calls).1)
  ⊆ dom cookies ∪ defaultKeySet schema ∪ list_to_set Object_prototype_names
  ∧ (∀ k, Store.has (runWrites (Store.new schema cookies) calls).1 k
          = Store.has (Store.new schema cookies) k)
  ∧ (∀ k, k ∉ call_key <$> calls →
          Store._cookies (runWrites (Store.new schema cookies) calls).1 !! k
          = cookies !! k).
Proof.
  destruct (runWrites_invariant calls (Store.new schema cookies))
    as (Hdom & Hshape & Hframe).
  split; [|split].
  - intros k Hk. rewrite !elem_of_union, elem_of_list_to_set.
    destruct (Hdom k Hk) as [Hk'|Hk']; [by left; left|].
    apply has_new_true in Hk'. tauto.
  - intros k. unfold Store.has. by rewrite Hshape.
  - exact Hframe.
Qed.

(** X10 on the README schema: after writes to [state], to a name
    outside the schema and to [toString], the entry [theme] that the
    cache started with is as it was. *)
Lemma X10_witness :
  Store._cookies
    (@runWrites exampleRuntime (Store.new stateSchema {[ "theme" := VNull ]})
       [ {| call_key := "state"; call_value := VBoolean false; call_options := None |};
         {| call_key := "other"; call_value := VBoolean true; call_options := None |};
         {| call_key := "toString"; call_value := VNull; call_options := None |} ]).1
  !! "theme" = Some VNull.
Proof.
  destruct (@X10_cache_invariant exampleRuntime stateSchema {[ "theme" := VNull ]}
              [ {| call_key := "state"; call_value := VBoolean false; call_options := None |};
                {| call_key := "other"; call_value := VBoolean true; call_options := None |};
                {| call_key := "toString"; call_value := VNull; call_options := None |} ])
    as (_ & _ & Hframe).
  rewrite Hframe; [reflexivity|].
  apply (bool_decide_unpack _). vm_compute. exact I.
Defined.

(** X11.  In the trace of any sequence of [set] and [update] calls
    there are as many transport writes as assignments to the cache, at
    most one per call, and every transport write is that of some call of
    the sequence: under the call's key, with [JSON.stringify] of the
    call's value and with the call's attributes. *)
Theorem X11_writes_match_calls `{Runtime} (this : Store.Cookies) (calls : list writeCall) :
  transportWrites (runWrites this calls).2 = notifications (runWrites this calls).2
  ∧ (transportWrites (runWrites this calls).2 ≤ length calls)%nat
  ∧ (∀ name v o, JsCookieSet name v o ∈ (runWrites this calls).2 →
       ∃ c, c ∈ calls ∧ name = call_key c ∧ v = JSON_stringify (call_value c)
            ∧ o = call_options c ∧ Store.has this name = true).
Proof.
  revert this. induction calls as [|c rest IH]; intros this; simpl.
  - split; [done|]. split; [done|]. by intros name v o ?%elem_of_nil.
  - destruct (update_normal this (call_key c) (call_value c) (call_options c))
      as (this' & t & Heq).
    rewrite Heq. destruct (IH this') as (IHeq & IHle & IHin).
    destruct (runWrites this' rest) as [this'' t'] eqn:Hrun. simpl in *.
    destruct (setValue_step _ _ _ _ _ _ Heq)
      as (_ & Hshape & _ & _ & Hcount & Hle & Hin).
    unfold transportWrites, notifications in *.
    rewrite !filter_app, !length_app.
    split; [lia|]. split; [lia|].
    intros name v o [Hhere|Hlater]%elem_of_app.
    + destruct (Hin name v o Hhere) as (-> & -> & -> & Hhas).
      exists c. split; [apply list_elem_of_here|]. done.
    + destruct (IHin name v o Hlater) as (c' & Hc' & -> & -> & -> & Hhas).
      exists c'. split; [by apply list_elem_of_further|].
      repeat split; try done. unfold Store.has in *. by rewrite <- Hshape.
Qed.

(** X11 on the README schema: of three calls, one changes [state], one
    repeats it and one is turned down; one cookie is written. *)
Lemma X11_witness :
  transportWrites
    (@runWrites exampleRuntime (Store.new stateSchema ∅)
       [ {| call_key := "state"; call_value := VBoolean false; call_options := None |};
         {| call_key := "state"; call_value := VBoolean false; call_options := None |};
         {| call_key := "state"; call_value := VString "bad"; call_options := None |} ]).2
  = 1
  ∧ ∃ c, c ∈ [ {| call_key := "state"; call_value := VBoolean false; call_options := None |};
               {| call_key := "state"; call_value := VBoolean false; call_options := None |};
               {| call_key := "state"; call_value := VString "bad"; call_options := None |} ]
         ∧ Some "false" = @JSON_stringify exampleRuntime (call_value c).
Proof.
  split; [reflexivity|].
  destruct (@X11_writes_match_calls exampleRuntime (Store.new stateSchema ∅)
              [ {| call_key := "state"; call_value := VBoolean false; call_options := None |};
                {| call_key := "state"; call_value := VBoolean false; call_options := None |};
                {| call_key := "state"; call_value := VString "bad"; call_options := None |} ])
    as (_ & _ & Hin).
  destruct (Hin "state" (Some "false") None) as (c & Hc & _ & Hv & _).
  { vm_compute. in_trace. }
  by exists c.
Defined.

(** ** The facade, and a schema without defaults *)

(** X8.  Through the facade, a property named by a schema key (or by a
    property of [Object.prototype]) other than [update] is read with the
    store's [get] and assigned with the store's [set], also when the
    name is that of a store method such as [get] or [has]; any other
    string, and every symbol, falls through to [Reflect.get] and
    [Reflect.set], and such an assignment validates nothing, writes no
    cookie and leaves the cache alone. *)
Theorem X8_facade_routing `{Runtime} (schema : StandardSchemaV1) (cookies : obj)
    (s : string) (value : JSValue) :
  s ≠ "update" →
  (s ∈ defaultKeySet schema ∨ s ∈ Object_prototype_names →
   handler_get (useCookies schema cookies) (PropString s)
   = SchemaValue (Store.get (useCookies schema cookies) s)
   ∧ handler_set (useCookies schema cookies) (PropString s) value
     = Store.set (useCookies schema cookies) s value)
  ∧ (s ∉ defaultKeySet schema → s ∉ Object_prototype_names →
     handler_get (useCookies schema cookies) (PropString s) = ReflectGet (PropString s)
     ∧ handler_set (useCookies schema cookies) (PropString s) value
       = Normal (useCookies schema cookies, [ReflectSet (PropString s) value]))
  ∧ (∀ id,
       handler_get (useCookies schema cookies) (PropSymbol id) = ReflectGet (PropSymbol id)
       ∧ handler_set (useCookies schema cookies) (PropSymbol id) value
         = Normal (useCookies schema cookies, [ReflectSet (PropSymbol id) value])).
Proof.
  intros Hs. apply String.eqb_neq in Hs.
  unfold handler_get, handler_set, useCookies. rewrite Hs.
  split; [|split; [|done]].
  - intros Hin.
    assert (Hhas : Store.has (Store.new schema cookies) s = true).
    { rewrite has_new, orb_true_iff, !bool_decide_eq_true.
      by rewrite <- keys_defaultKeySet, elem_of_list_to_set in Hin. }
    by rewrite Hhas.
  - intros Hk Hp.
    assert (Hhas : Store.has (Store.new schema cookies) s = false).
    { destruct (Store.has (Store.new schema cookies) s) eqn:Hhas; [|done].
      apply has_new_true in Hhas. tauto. }
    by rewrite Hhas.
Qed.

(** X8 on a schema with a field named [get]: the facade's [get] is the
    cookie value; [validate] stays the store's own. *)
Lemma X8_witness :
  @handler_get
    (@useCookies {| standard_validate _ := Success {[ "get" := VBoolean true ]};
                    shape := None |} ∅) (PropString "get")
  = SchemaValue (Normal (VBoolean true))
  ∧ @handler_get
      (@useCookies {| standard_validate _ := Success {[ "get" := VBoolean true ]};
                      shape := None |} ∅) (PropString "validate")
    = ReflectGet (PropString "validate").
Proof.
  destruct (@X8_facade_routing exampleRuntime
              {| standard_validate _ := Success {[ "get" := VBoolean true ]};
                 shape := None |} ∅ "get" VNull) as (Hroute & _ & _); [done|].
  destruct (@X8_facade_routing exampleRuntime
              {| standard_validate _ := Success {[ "get" := VBoolean true ]};
                 shape := None |} ∅ "validate" VNull) as (_ & Hfall & _); [done|].
  split.
  - destruct Hroute as [-> _]; [|reflexivity].
    left. apply (bool_decide_unpack _). vm_compute. exact I.
  - apply Hfall; apply (bool_decide_unpack _); vm_compute; exact I.
Defined.

(** X15.  When validating the empty candidate does not succeed (a
    field without a default), the schema has no keys: the store has no
    encoders, [has] is true for the property names of [Object.prototype]
    only, a write under any other name is a no-op, and [pickCookies]
    returns the empty object for every jar. *)
Theorem X15_schema_without_defaults `{Runtime} (schemas : schemaRef → StandardSchemaV1)
    (r : schemaRef) :
  isSuccess (standard_validate (schemas r) ∅) = false →
  keys (extractSchemaInfo (schemas r)) = []
  ∧ (∀ cookies k,
       Store.has (Store.new (schemas r) cookies) k
       = bool_decide (k ∈ Object_prototype_names))
  ∧ (∀ cookies k value options,
       k ∉ Object_prototype_names →
       Store.update (Store.new (schemas r) cookies) k value options
       = Normal (Store.new (schemas r) cookies, []))
  ∧ (∀ c {Opts} (jar : KitCookies Opts) opts,
       reachable schemas c → (pickCookies schemas c jar r opts).1 = ∅).
Proof.
  intros Hfail.
  assert (Hkeys : keys (extractSchemaInfo (schemas r)) = []).
  { rewrite extractSchemaInfo_keys. by destruct (standard_validate (schemas r) ∅). }
  split; [exact Hkeys|]. split; [|split].
  - intros cookies k. rewrite has_new, Hkeys. done.
  - intros cookies k value options Hk.
    apply unknown_key_noop; [|done]. rewrite Hkeys. apply not_elem_of_nil.
  - intros c Opts jar opts Hc. rewrite pickCookies_fold. simpl.
    by rewrite (getCachedKeys_keys schemas c r Hc), Hkeys.
Qed.

(** X15 on the schema [z.object({ token: z.string() })]. *)
Lemma X15_witness :
  Store.has (Store.new requiredSchema ∅) "token" = false
  ∧ @Store.update exampleRuntime (Store.new requiredSchema ∅) "token" (VString "t") None
    = Normal (Store.new requiredSchema ∅, [])
  ∧ (@pickCookies exampleRuntime (λ _, requiredSchema) unit ∅
       (jarOf [("token", "null")]) 1%positive None).1 = ∅.
Proof.
  destruct (@X15_schema_without_defaults exampleRuntime (λ _, requiredSchema)
              1%positive eq_refl) as (_ & Hhas & Hnoop & Hpick).
  split; [by rewrite Hhas|]. split.
  - apply Hnoop. apply (bool_decide_unpack _). vm_compute. exact I.
  - apply Hpick. apply reachable_init.
Defined.

(** X2 and X13 on concrete inputs. *)
Lemma X2_witness :
  (" "%char ∉ list_ascii_of_string (encodedKey "my key; v=1"))
  ∧ (";"%char ∉ list_ascii_of_string (encodedKey "my key; v=1"))
  ∧ ("="%char ∉ list_ascii_of_string (encodedKey "my key; v=1")).
Proof.
  destruct (X2_encodedKey_alphabet "my key; v=1") as [_ Hchars].
  repeat split; intros Hin; destruct (Hchars _ Hin) as (Hnot & _);
    apply Hnot; apply (bool_decide_unpack _); vm_compute; exact I.
Defined.

Lemma X13_witness :
  Store.has (Store.new stateSchema ∅) "state" = true
  ∧ Store.has (Store.new stateSchema ∅) "valueOf" = true
  ∧ Store.has (Store.new stateSchema ∅) "theme" = false.
Proof.
  split; [|split].
  - apply (proj1 (X13_has_exact stateSchema ∅ ∅ "state")). left.
    apply (bool_decide_unpack _). vm_compute. exact I.
  - apply (proj1 (X13_has_exact stateSchema ∅ ∅ "valueOf")). right.
    apply (bool_decide_unpack _). vm_compute. exact I.
  - destruct (Store.has (Store.new stateSchema ∅) "theme") eqn:Hhas; [|done].
    apply (proj1 (X13_has_exact stateSchema ∅ ∅ "theme")) in Hhas.
    exfalso. destruct Hhas as [Hin|Hin]; revert Hin;
      apply (bool_decide_unpack _); vm_compute; exact I.
Defined.

(** ** From the server to the client and back *)

(** X16.  A store seeded with what [pickCookies] returned for its
    schema holds, after any calls of [set] and [update], no key other
    than schema keys and property names of [Object.prototype]. *)
Theorem X16_seeded_store_keys `{Runtime} (schemas : schemaRef → StandardSchemaV1)
    (c : keysCache) {Opts} (jar : KitCookies Opts) (r : schemaRef) (opts : option Opts)
    (calls : list writeCall) :
  reachable schemas c →
  dom (Store._cookies
         (runWrites (useCookies (schemas r) (pickCookies schemas c jar r opts).1) calls).1)
  ⊆ defaultKeySet (schemas r) ∪ list_to_set Object_prototype_names.
Proof.
  intros Hc k Hk. rewrite elem_of_union, elem_of_list_to_set.
  destruct (runWrites_invariant calls
              (useCookies (schemas r) (pickCookies schemas c jar r opts).1))
    as (Hdom & _ & _).
  destruct (Hdom k Hk) as [Hseed|Hhas].
  - left. unfold useCookies in Hseed. simpl in Hseed.
    rewrite pickCookies_fold in Hseed. simpl in Hseed.
    apply elem_of_dom in Hseed as [v Hv].
    rewrite foldl_pickOne_lookup, lookup_empty in Hv.
    case_bool_decide as Hin; [|done].
    rewrite (getCachedKeys_keys schemas c r Hc) in Hin.
    rewrite <- keys_defaultKeySet. by apply elem_of_list_to_set.
  - by apply has_new_true in Hhas.
Qed.

(** X16 on the README schema and a jar with cookies outside the
    schema: [theme] never gets into the cache. *)
Lemma X16_witness :
  "theme" ∉ dom (Store._cookies
    (@runWrites exampleRuntime
       (@useCookies stateSchema
          (@pickCookies exampleRuntime (λ _, stateSchema) unit ∅
             (jarOf [("theme", "true"); ("state", "false")]) 1%positive None).1)
       [ {| call_key := "theme"; call_value := VBoolean true; call_options := None |};
         {| call_key := "state"; call_value := VBoolean true; call_options := None |} ]).1).
Proof.
  intros Hin.
  apply (@X16_seeded_store_keys exampleRuntime (λ _, stateSchema) ∅ unit
           (jarOf [("theme", "true"); ("state", "false")]) 1%positive None
           [ {| call_key := "theme"; call_value := VBoolean true; call_options := None |};
             {| call_key := "state"; call_value := VBoolean true; call_options := None |} ]
           (reachable_init _)) in Hin.
  revert Hin. apply (bool_decide_unpack _). vm_compute. exact I.
Defined.

(** X17.  What is written is what is read back: when a call writes the
    cookie of a schema key, [JSON.parse] undoes [JSON.stringify] on the
    value passed, and the jar holds every string the call wrote under
    the encoded name of its key, then [pickCookies] returns for that key
    the value passed to the call, which need not be the value the call
    committed to the cache. *)
Theorem X17_written_value_read_back `{Runtime} (schemas : schemaRef → StandardSchemaV1)
    (c : keysCache) {Opts} (jar : KitCookies Opts) (r : schemaRef) (opts : option Opts)
    (cookies : obj) (key : string) (value : JSValue) (options : option CookieAttributes)
    (written : string) :
  reachable schemas c →
  key ∈ defaultKeySet (schemas r) →
  0 < transportWrites
        (traceOf (Store.update (useCookies (schemas r) cookies) key value options)) →
  (∀ name w o,
     JsCookieSet name (Some w) o
     ∈ traceOf (Store.update (useCookies (schemas r) cookies) key value options) →
     kit_get jar (encodedKey name) opts = Some w) →
  JSON_stringify value = Some written →
  JSON_parse written = Some value →
  (pickCookies schemas c jar r opts).1 !! key = Some value.
Proof.
  intros Hc Hkey Hwrites Hjar Hstr Hparse.
  assert (Hev : JsCookieSet key (Some written) options
                ∈ traceOf (Store.update (useCookies (schemas r) cookies) key value options)).
  { unfold Store.update, transportWrites in *.
    destruct (setValue_writes (useCookies (schemas r) cookies) key value options)
      as [Hnone|Hone].
    - rewrite Hnone in Hwrites. simpl in Hwrites. lia.
    - assert (Hin : JsCookieSet key (JSON_stringify value) options
                    ∈ filter isJsCookieSet
                        (traceOf (Store.setValue (useCookies (schemas r) cookies)
                                    key value options))).
      { rewrite Hone. apply list_elem_of_here. }
      apply list_elem_of_filter in Hin as [_ Hin]. by rewrite Hstr in Hin. }
  specialize (Hjar _ _ _ Hev).
  rewrite pickCookies_fold. simpl.
  rewrite foldl_pickOne_lookup, (getCachedKeys_keys schemas c r Hc).
  rewrite bool_decide_eq_true_2.
  - unfold readCookie. rewrite Hjar. simpl. by rewrite Hparse.
  - rewrite <- keys_defaultKeySet in Hkey. by apply elem_of_list_to_set in Hkey.
Qed.

(** X17 on the schema that negates its field: [set('flag', false)]
    commits [true] to the cache and writes ["false"]; the jar with that
    cookie is picked as [false]. *)
Lemma X17_witness :
  (@pickCookies exampleRuntime (λ _, negatingSchema) unit ∅
     (jarOf [("flag", "false")]) 1%positive None).1 !! "flag" = Some (VBoolean false)
  ∧ cacheOf (@Store.update exampleRuntime (@useCookies negatingSchema ∅) "flag"
               (VBoolean false) None)
    = Some {[ "flag" := VBoolean true ]}.
Proof.
  split; [|reflexivity].
  apply (@X17_written_value_read_back exampleRuntime (λ _, negatingSchema) ∅ unit
           (jarOf [("flag", "false")]) 1%positive None ∅ "flag" (VBoolean false) None
           "false" (reachable_init _)).
  - apply (bool_decide_unpack _). vm_compute. exact I.
  - vm_compute. lia.
  - intros name w o Hin. vm_compute in Hin. elem_of_trace Hin.
    by injection Hin as -> -> ->.
  - reflexivity.
  - reflexivity.
Defined.
